(** * Ingestion of scraped documentation: [scripts/add_new_docs.py]

    A shallow embedding of [process_and_add_documentation] and the
    properties of its chunk forwarding: id assignment, per-document failure
    handling, grouping of the [add_documents] calls and metadata defaults.

    The script drives two collaborators whose code lives elsewhere in the
    repository ([SmartDocumentChunker], [ChromaVectorStore]); both are
    interfaces here, and the general theorems hold for any implementation.
    The concrete runs at the end use a small chunker and an in-memory
    store. *)

From Stdlib Require Import Ascii String.
From stdpp Require Import base option list strings gmap pretty.

(** ** Data model *)

(** A scraped document is one JSON object of the loaded file: a dictionary
    from field names to text (the fields of spec section 3 are all text) in
    which any key may be absent. An element of the file that is not an
    object, on which [doc['content']] is a [TypeError], is outside this
    type. *)
Abbreviation Doc := (gmap string string).

(** The dictionary literal the script builds for [chunk_document]
    (lines 52-58): five fixed keys. *)
Record DocMetadata := {
  md_title : string;
  md_source : string;
  md_url : string;
  md_doc_type : string;
  md_scraped_at : string
}.

(** Modelled from the spec: the metadata of a chunk returned by
    [SmartDocumentChunker.chunk_document], whose class is not part of the
    sources at hand (spec section 3, ChunkMetadata). *)
Record ChunkMetadata := {
  cm_title : string;
  cm_source : string;
  cm_url : string;
  cm_doc_type : string;
  cm_scraped_at : string;
  cm_chunk_index : nat;
  cm_total_chunks : nat;
  cm_id : string
}.

(** Modelled from the spec: the chunk returned by
    [SmartDocumentChunker.chunk_document] (spec section 3, Chunk); the script
    reads its keys ['content'] and ['metadata']. *)
Record Chunk := {
  content : string;
  metadata : ChunkMetadata;
  sequence_index : nat
}.

(** The dictionary returned by [get_collection_stats]; the script reads it
    with [stats.get(key, default)], so either key may be absent. [sources]
    keeps the iteration order of [.items()]. *)
Record Stats := {
  total_chunks : option nat;
  sources : option (list (string * nat))
}.

(** ** Exceptions and results *)

(** The exceptions derived from [Exception], which line 66 catches. What is
    raised outside that class (a cancellation of the awaited call, a
    keyboard interrupt) is not in this type. *)
Inductive exn :=
  | KeyError (key : string)
  | ChunkerError (msg : string).

Inductive result (A : Type) :=
  | Ok (a : A)
  | Raise (e : exn).
Arguments Ok {A} a.
Arguments Raise {A} e.

Definition result_bind {A B} (r : result A) (k : A → result B) : result B :=
  match r with
  | Ok a => k a
  | Raise e => Raise e
  end.

(** [d[k]] on a dictionary: the value, or [KeyError]. *)
Definition getitem (d : Doc) (k : string) : result string :=
  match d !! k with
  | Some v => Ok v
  | None => Raise (KeyError k)
  end.

(** ** Collaborators *)

(** [SmartDocumentChunker]: [chunk_document(content, metadata)] returns the
    list of chunks of one document or raises. The script awaits each call
    before it goes on, so the calls happen one after the other. *)
Class Chunker := {
  chunk_document : string → DocMetadata → result (list Chunk)
}.

(** [str.upper()], which line 103 applies to the source names of the
    statistics: the one operation of the script that looks inside a text.
    It belongs to the interpreter and stays a parameter. *)
Class Upper := upper : string → string.

(** [ChromaVectorStore] over its state [St]: [add_documents(texts, metadatas,
    ids)] updates the store, [get_collection_stats()] reads it. Both calls
    are taken to return; the script has no handler around them. *)
Class VectorStore (St : Type) := {
  add_documents : list string → list ChunkMetadata → list string → St → St;
  get_collection_stats : St → Stats
}.

(** ** Observable events *)

Inductive level := INFO | WARNING | ERROR.

(** One constructor per [logger] call of the script, carrying the values
    interpolated into its message. *)
Inductive message :=
  | MsgStarting
  | MsgFileNotFound (file_path : string)
  | MsgProcessing (doc_type file_path : string)
  | MsgLoaded (n : nat) (doc_type : string)
  | MsgProcessed (k n : nat) (doc_type : string)
  | MsgErrorProcessing (title : string) (e : exn)
  | MsgAdding (n : nat) (doc_type : string)
  | MsgAdded (n : nat) (doc_type : string)
  | MsgNoChunks (doc_type : string)
  | MsgCompleted
  | MsgTotalAdded (n : nat)
  | MsgTotalInDatabase (n : nat)
  | MsgSourcesInDatabase (n : nat)
  | MsgSourceBreakdown
  | MsgSourceCount (source : string) (count : nat).

Inductive event :=
  | Log (l : level) (m : message)
  | AddDocuments (texts : list string) (metadatas : list ChunkMetadata)
      (ids : list string).

(** ** The state and exception monad of the script *)

Record state (St : Type) := {
  vs : St;
  trace : list event
}.
Arguments vs {St} _.
Arguments trace {St} _.

(** A computation returns or raises; its effects on the store and the trace
    stay in either case. *)
Definition M (St A : Type) : Type := state St → result A * state St.

Definition ret {St A} (a : A) : M St A := λ s, (Ok a, s).

Definition bind {St A B} (c : M St A) (k : A → M St B) : M St B :=
  λ s, match c s with
       | (Ok a, s') => k a s'
       | (Raise e, s') => (Raise e, s')
       end.

(** A computation without effects: it returns or raises as [r] does. *)
Definition lift {St A} (r : result A) : M St A := λ s, (r, s).

(** [try: body except Exception as e: handler e]; every [exn] derives from
    [Exception]. *)
Definition try_except {St A} (body : M St A) (handler : exn → M St A) : M St A :=
  λ s, match body s with
       | (Ok a, s') => (Ok a, s')
       | (Raise e, s') => handler e s'
       end.

(** The state after the events [evs] have been appended to the trace. *)
Definition extend {St} (evs : list event) (s : state St) : state St :=
  {| vs := vs s; trace := trace s ++ evs |}.

Definition emit {St} (e : event) : M St unit := λ s, (Ok tt, extend [e] s).

Definition logger {St} (l : level) (m : message) : M St unit := emit (Log l m).

Declare Scope py_scope.
Delimit Scope py_scope with py.
Notation "'let*' x ':=' c 'in' k" := (bind c (λ x, k))
  (at level 10, x name, c at level 100, k at level 200) : py_scope.
Notation "c1 '>>' c2" := (bind c1 (λ _, c2))
  (at level 100, c2 at level 200, right associativity) : py_scope.
Open Scope py_scope.

Fixpoint for_each {St A B} (f : A → B → M St B) (l : list A) (acc : B) : M St B :=
  match l with
  | [] => ret acc
  | x :: l' => let* acc' := f x acc in for_each f l' acc'
  end.

(** ** The script *)

Section script.
Context `{Chunker} `{Upper} {St : Type} `{VectorStore St}.

(** Lines 50-59: the arguments are evaluated left to right, [content]
    first, then the entries of the metadata literal; the optional fields
    use [doc.get] with a default. *)
Definition chunk_call (doc : Doc) : result (list Chunk) :=
  result_bind (getitem doc "content") (λ content,
  result_bind (getitem doc "title") (λ title,
  result_bind (getitem doc "source") (λ source,
  result_bind (getitem doc "url") (λ url,
  chunk_document content
    {| md_title := title;
       md_source := source;
       md_url := url;
       md_doc_type := default "general" (doc !! "doc_type");
       md_scraped_at := default "" (doc !! "scraped_at") |})))).

(** Lines 47-68, one iteration of [for i, doc in enumerate(documents)];
    [chunks_for_this_source] is the accumulator. The handler evaluates
    [doc['title']] for its message, outside any [try]. *)
Definition document_step (doc_type : string) (n : nat) (i : nat) (doc : Doc)
    (chunks_for_this_source : list Chunk) : M St (list Chunk) :=
  try_except
    (let* chunks := lift (chunk_call doc) in
     let chunks_for_this_source := chunks_for_this_source ++ chunks in
     (if decide ((i + 1) `mod` 10 = 0)
      then logger INFO (MsgProcessed (i + 1) n doc_type)
      else ret tt) >>
     ret chunks_for_this_source)
    (λ e,
     let* title := lift (getitem doc "title") in
     logger ERROR (MsgErrorProcessing title e) >>
     ret chunks_for_this_source).

Fixpoint documents_loop (doc_type : string) (n : nat) (i : nat)
    (documents : list Doc) (chunks_for_this_source : list Chunk)
    : M St (list Chunk) :=
  match documents with
  | [] => ret chunks_for_this_source
  | doc :: rest =>
      let* chunks_for_this_source :=
        document_step doc_type n i doc chunks_for_this_source in
      documents_loop doc_type n (S i) rest chunks_for_this_source
  end.

(** Line 77: [f"{chunk['metadata']['source']}_{i}"] over
    [enumerate(chunks_for_this_source)]. *)
Definition chunk_id (i : nat) (chunk : Chunk) : string :=
  cm_source (metadata chunk) +:+ "_" +:+ pretty i.

Definition vector_store_add_documents (texts : list string)
    (metadatas : list ChunkMetadata) (ids : list string) : M St unit :=
  λ s, (Ok tt, {| vs := add_documents texts metadatas ids (vs s);
                  trace := trace s ++ [AddDocuments texts metadatas ids] |}).

Definition vector_store_get_collection_stats : M St Stats :=
  λ s, (Ok (get_collection_stats (vs s)), s).

(** Lines 70-90. *)
Definition add_chunks (doc_type : string) (chunks_for_this_source : list Chunk)
    (total_chunks_added : nat) : M St nat :=
  match chunks_for_this_source with
  | _ :: _ =>
      logger INFO (MsgAdding (length chunks_for_this_source) doc_type) >>
      let texts := content <$> chunks_for_this_source in
      let metadatas := metadata <$> chunks_for_this_source in
      let ids := imap chunk_id chunks_for_this_source in
      vector_store_add_documents texts metadatas ids >>
      let total_chunks_added :=
        total_chunks_added + length chunks_for_this_source in
      logger INFO (MsgAdded (length chunks_for_this_source) doc_type) >>
      ret total_chunks_added
  | [] =>
      logger WARNING (MsgNoChunks doc_type) >>
      ret total_chunks_added
  end.

(** Lines 29-90, one iteration of [for file_path, doc_type in
    scraped_files]. The file system maps a path to the list of documents
    [json.load] reads from it, taken to be well-formed JSON; an absent key
    is a file that does not exist. *)
Definition source_step (fs : gmap string (list Doc))
    (file : string * string) (total_chunks_added : nat) : M St nat :=
  let '(file_path, doc_type) := file in
  match fs !! file_path with
  | None =>
      logger WARNING (MsgFileNotFound file_path) >>
      ret total_chunks_added
  | Some documents =>
      logger INFO (MsgProcessing doc_type file_path) >>
      logger INFO (MsgLoaded (length documents) doc_type) >>
      let* chunks_for_this_source :=
        documents_loop doc_type (length documents) 0 documents [] in
      add_chunks doc_type chunks_for_this_source total_chunks_added
  end.

Definition scraped_files : list (string * string) :=
  [ ("data/scraped/django_docs.json", "Django");
    ("data/scraped/react_nextjs_docs.json", "React/Next.js");
    ("data/scraped/python_docs.json", "Python") ].

(** Lines 92-103; the breakdown lines carry [source.upper()]. *)
Definition report_statistics (total_chunks_added : nat) : M St unit :=
  let* stats := vector_store_get_collection_stats in
  logger INFO MsgCompleted >>
  logger INFO (MsgTotalAdded total_chunks_added) >>
  logger INFO (MsgTotalInDatabase (default 0 (total_chunks stats))) >>
  logger INFO (MsgSourcesInDatabase (length (default [] (sources stats)))) >>
  logger INFO MsgSourceBreakdown >>
  for_each (λ '(source, count) _,
              logger INFO (MsgSourceCount (upper source) count))
    (default [] (sources stats)) tt.

Definition process_and_add_documentation (fs : gmap string (list Doc))
    : M St unit :=
  logger INFO MsgStarting >>
  let* total_chunks_added := for_each (source_step fs) scraped_files 0 in
  report_statistics total_chunks_added.

(** Lines 105-107. *)
Definition main (fs : gmap string (list Doc)) : M St unit :=
  process_and_add_documentation fs.

End script.

(** ** Observations on a trace *)

(** The argument triples of the [add_documents] calls, in call order. *)
Definition add_calls (t : list event)
    : list (list string * list ChunkMetadata * list string) :=
  omap (λ e, match e with
             | AddDocuments texts metadatas ids => Some (texts, metadatas, ids)
             | Log _ _ => None
             end) t.

(** The failures recorded by the handler of line 67: title and exception. *)
Definition recorded_failures (t : list event) : list (string * exn) :=
  omap (λ e, match e with
             | Log ERROR (MsgErrorProcessing title e) => Some (title, e)
             | _ => None
             end) t.

(** The three sequences line 75-77 build from a list of chunks. *)
Definition call_of (id_of : nat → Chunk → string) (chunks : list Chunk)
    : list string * list ChunkMetadata * list string :=
  (content <$> chunks, metadata <$> chunks, imap id_of chunks).

(** A run of the script on the store [v], with an empty trace. *)
Definition initial {St} (v : St) : state St := {| vs := v; trace := [] |}.

(** Whether the character [c] occurs in [s]. *)
Fixpoint occurs (c : ascii) (s : string) : bool :=
  match s with
  | EmptyString => false
  | String c' s' => bool_decide (c = c') || occurs c s'
  end.

(** The events a computation started in [s] and ended in [s'] added. *)
Definition new_events {St} (s s' : state St) : list event :=
  drop (length (trace s)) (trace s').

Definition result_map {A B} (f : A → B) (r : result A) : result B :=
  result_bind r (λ a, Ok (f a)).

(** The progress message of lines 63-64, issued after every tenth
    document. *)
Definition progress_events (doc_type : string) (n i : nat) : list event :=
  if decide ((i + 1) `mod` 10 = 0)
  then [Log INFO (MsgProcessed (i + 1) n doc_type)]
  else [].

(** ** What one document and one list of documents amount to *)

Section summary.
Context `{Chunker}.

(** The three ways an iteration of the document loop can end. *)
Inductive doc_outcome :=
  | Chunked (chunks : list Chunk)
  | Skipped (title : string) (e : exn)
  | Aborted.

Definition outcome (doc : Doc) : doc_outcome :=
  match chunk_call doc with
  | Ok chunks => Chunked chunks
  | Raise e =>
      match doc !! "title" with
      | Some title => Skipped title e
      | None => Aborted
      end
  end.

(** The chunks gathered from a list of documents, or the exception that
    ends the loop. *)
Fixpoint gathered (documents : list Doc) : result (list Chunk) :=
  match documents with
  | [] => Ok []
  | doc :: rest =>
      match outcome doc with
      | Chunked chunks => result_map (app chunks) (gathered rest)
      | Skipped _ _ => gathered rest
      | Aborted => Raise (KeyError "title")
      end
  end.

(** The failures the loop records before it ends. *)
Fixpoint failures (documents : list Doc) : list (string * exn) :=
  match documents with
  | [] => []
  | doc :: rest =>
      match outcome doc with
      | Chunked _ => failures rest
      | Skipped title e => (title, e) :: failures rest
      | Aborted => []
      end
  end.

(** The [add_documents] call of one source file, if it makes one. *)
Definition source_calls (fs : gmap string (list Doc)) (file_path : string)
    : list (list string * list ChunkMetadata * list string) :=
  match fs !! file_path with
  | None => []
  | Some documents =>
      match gathered documents with
      | Ok (chunk :: chunks) => [call_of chunk_id (chunk :: chunks)]
      | Ok [] | Raise _ => []
      end
  end.

(** Whether the loop over the documents of a source file ends by an
    exception. *)
Definition source_raises (fs : gmap string (list Doc)) (file_path : string)
    : bool :=
  match fs !! file_path with
  | None => false
  | Some documents =>
      match gathered documents with
      | Ok _ => false
      | Raise _ => true
      end
  end.

(** The [add_documents] calls of a run over the given source files. *)
Fixpoint run_calls (fs : gmap string (list Doc))
    (files : list (string * string))
    : list (list string * list ChunkMetadata * list string) :=
  match files with
  | [] => []
  | file :: rest =>
      source_calls fs file.1 ++
      (if source_raises fs file.1 then [] else run_calls fs rest)
  end.

End summary.

Section hoare.
Context {St : Type} `{VectorStore St}.

(** The state reached from [s] once the events [evs] have happened. *)
Definition advance (evs : list event) (s : state St) : state St :=
  {| vs := foldl (λ v c, add_documents c.1.1 c.1.2 c.2 v) (vs s)
             (add_calls evs);
     trace := trace s ++ evs |}.

(** From any state, [c] ends with a result and events that satisfy [Q]. *)
Definition post {A} (c : M St A) (Q : result A → list event → Prop) : Prop :=
  ∀ s, ∃ r evs, c s = (r, advance evs s) ∧ Q r evs.

End hoare.

(** ** Concrete collaborators and inputs *)

Module Examples.

Definition newline : ascii := Ascii.ascii_of_nat 10.

(** The pieces of [s] between newlines, [cur] being the piece in
    progress. *)
Fixpoint split_lines (s : string) (cur : string) : list string :=
  match s with
  | EmptyString => [cur]
  | String c s' =>
      if decide (c = newline) then cur :: split_lines s' ""
      else split_lines s' (cur +:+ String c "")
  end.

Definition line_chunk (md : DocMetadata) (total : nat) (i : nat)
    (line : string) : Chunk :=
  {| content := line;
     metadata :=
       {| cm_title := md_title md;
          cm_source := md_source md;
          cm_url := md_url md;
          cm_doc_type := md_doc_type md;
          cm_scraped_at := md_scraped_at md;
          cm_chunk_index := i;
          cm_total_chunks := total;
          cm_id := md_source md +:+ "::" +:+ md_url md +:+ "::" +:+ pretty i |};
     sequence_index := i |}.

(** A chunker that makes one chunk per non-empty line, copies the document
    fields into the chunk metadata and refuses the content ["<binary>"]. *)
#[export] Instance line_chunker : Chunker := {|
  chunk_document content md :=
    if decide (content = "<binary>") then Raise (ChunkerError "not text")
    else
      let lines := filter (λ l, l ≠ "") (split_lines content "") in
      Ok (imap (line_chunk md (length lines)) lines)
|}.

(** Upper case for the letters [a] to [z], which is what [str.upper()] does
    on the ASCII source names of the runs below. *)
Definition upper_char (c : ascii) : ascii :=
  let n := nat_of_ascii c in
  if decide (97 ≤ n ≤ 122) then ascii_of_nat (n - 32) else c.

Fixpoint upper_letters (s : string) : string :=
  match s with
  | EmptyString => EmptyString
  | String c s' => String (upper_char c) (upper_letters s')
  end.

#[export] Instance ascii_upper : Upper := upper_letters.

(** Modelled from the spec: [ChromaVectorStore] as an in-memory upsert by
    id (spec section 6); its class is not part of the sources at hand. *)
Definition upsert (store : gmap string (string * ChunkMetadata))
    (entries : list (string * (string * ChunkMetadata)))
    : gmap string (string * ChunkMetadata) :=
  foldl (λ m e, <[e.1 := e.2]> m) store entries.

Definition source_counts (store : gmap string (string * ChunkMetadata))
    : gmap string nat :=
  map_fold (λ _ e counts,
      <[cm_source e.2 := S (default 0 (counts !! cm_source e.2))]> counts)
    ∅ store.

#[export] Instance memory_store
    : VectorStore (gmap string (string * ChunkMetadata)) := {|
  add_documents texts metadatas ids store :=
    upsert store (zip ids (zip texts metadatas));
  get_collection_stats store :=
    {| total_chunks := Some (size store);
       sources := Some (map_to_list (source_counts store)) |}
|}.

Definition doc (title source url text : string) : Doc :=
  {[ "content" := text; "title" := title; "source" := source; "url" := url ]}.

Definition django : string := "data/scraped/django_docs.json".
Definition python : string := "data/scraped/python_docs.json".

Definition views : Doc := doc "Views" "django" "u1" "def view".
Definition models : Doc :=
  doc "Models" "django" "u2" ("class M" +:+ String newline "fields").

(** The only chunk of [views]. *)
Definition views_metadata : ChunkMetadata :=
  {| cm_title := "Views"; cm_source := "django"; cm_url := "u1";
     cm_doc_type := "general"; cm_scraped_at := "";
     cm_chunk_index := 0; cm_total_chunks := 1;
     cm_id := "django::u1::0" |}.

(** The same document ingested alone and behind another one. *)
Definition fs_alone : gmap string (list Doc) := {[ django := [views] ]}.
Definition fs_behind : gmap string (list Doc) :=
  {[ django := [models; views] ]}.

(** Documents that lack a field. *)
Definition untitled : Doc :=
  {[ "content" := "orphan"; "source" := "django"; "url" := "u0" ]}.
Definition no_url : Doc :=
  {[ "content" := "text"; "title" := "Nowhere"; "source" := "django" ]}.
Definition blank : Doc := doc "Blank" "django" "u4" "".

Definition intro : Doc := doc "Intro" "python" "u5" "import this".

(** A batch whose first document has no title, before a well-formed
    document and a second source file. *)
Definition fs_untitled : gmap string (list Doc) :=
  {[ django := [untitled; views]; python := [intro] ]}.

(** Two source files whose documents name the same source. *)
Definition guide : Doc := doc "Guide" "docs" "u6" "first steps".
Definition manual : Doc := doc "Manual" "docs" "u7" "reference".
Definition fs_shared : gmap string (list Doc) :=
  {[ django := [guide]; python := [manual] ]}.

Definition guide_metadata : ChunkMetadata :=
  {| cm_title := "Guide"; cm_source := "docs"; cm_url := "u6";
     cm_doc_type := "general"; cm_scraped_at := "";
     cm_chunk_index := 0; cm_total_chunks := 1;
     cm_id := "docs::u6::0" |}.
Definition manual_metadata : ChunkMetadata :=
  {| cm_title := "Manual"; cm_source := "docs"; cm_url := "u7";
     cm_doc_type := "general"; cm_scraped_at := "";
     cm_chunk_index := 0; cm_total_chunks := 1;
     cm_id := "docs::u7::0" |}.


(** The chunks [line_chunker] makes of a document. *)
Definition chunks_of (d : Doc) : list Chunk :=
  match chunk_call d with
  | Ok chunks => chunks
  | Raise _ => []
  end.

(** A run on the empty in-memory store. *)
Definition run (fs : gmap string (list Doc))
    : result unit * state (gmap string (string * ChunkMetadata)) :=
  process_and_add_documentation fs (initial ∅).

Definition empty_state : state (gmap string (string * ChunkMetadata)) :=
  initial ∅.

End Examples.

(** ** Further observations *)

(** The number of chunks passed to [add_documents] along a trace. *)
Definition forwarded (t : list event) : nat :=
  sum_list ((λ call, length call.1.1) <$> add_calls t).

(** The log lines of lines 95-103 for the total counted by the run and the
    statistics read from the store. *)
Definition report_events `{Upper} (total_chunks_added : nat) (stats : Stats)
    : list event :=
  [ Log INFO MsgCompleted;
    Log INFO (MsgTotalAdded total_chunks_added);
    Log INFO (MsgTotalInDatabase (default 0 (total_chunks stats)));
    Log INFO (MsgSourcesInDatabase (length (default [] (sources stats))));
    Log INFO MsgSourceBreakdown ] ++
  ((λ '(source, count), Log INFO (MsgSourceCount (upper source) count))
     <$> default [] (sources stats)).

(** A document that has the key ['title']. *)
Definition titled (doc : Doc) : Prop := is_Some (doc !! "title").

(** A source file that is absent or holds titled documents only. *)
Definition file_titled (fs : gmap string (list Doc)) (file : string * string)
    : Prop :=
  ∀ documents, fs !! file.1 = Some documents → Forall titled documents.

Section batch.
Context `{Chunker}.

(** The chunks of the documents that get through the [try] block, in
    document order. *)
Definition succeeded (documents : list Doc) : list Chunk :=
  mjoin ((λ doc, match chunk_call doc with
                 | Ok chunks => chunks
                 | Raise _ => []
                 end) <$> documents).

(** The titled documents that do not get through it, each with the
    exception raised, in document order. *)
Definition failed (documents : list Doc) : list (string * exn) :=
  omap (λ doc, match chunk_call doc with
               | Ok _ => None
               | Raise e => (λ title, (title, e)) <$> doc !! "title"
               end) documents.

End batch.

(** The entries the calls give to a store that keeps one text and one
    metadata per id, in call order and then in position order. *)
Definition call_entries
    (calls : list (list string * list ChunkMetadata * list string))
    : list (string * (string * ChunkMetadata)) :=
  mjoin ((λ call, zip call.2 (zip call.1.1 call.1.2)) <$> calls).

(** The last value listed for a key, if any. *)
Definition last_entry {V} (k : string) (entries : list (string * V))
    : option V :=
  foldl (λ found e, if decide (e.1 = k) then Some e.2 else found) None entries.

Module MoreExamples.
Import Examples.

(** A file the script has no entry for, beside the one of [fs_alone]. *)
Definition fs_other : gmap string (list Doc) :=
  <["data/scraped/notes.json" := [models]]> fs_alone.

(** A document [line_chunker] refuses. *)
Definition binary : Doc := doc "Blob" "django" "u8" "<binary>".


Definition ten : list Doc := replicate 10 views.

Definition fs_all : gmap string (list Doc) :=
  {[ django := [views; models]; python := [intro] ]}.

End MoreExamples.

(** * Properties *)

(** ** Traces *)

Lemma add_calls_app (t1 t2 : list event) :
  add_calls (t1 ++ t2) = add_calls t1 ++ add_calls t2.
Proof. apply omap_app. Qed.

Lemma recorded_failures_app (t1 t2 : list event) :
  recorded_failures (t1 ++ t2) = recorded_failures t1 ++ recorded_failures t2.
Proof. apply omap_app. Qed.

Lemma new_events_extend {St} (evs : list event) (s : state St) :
  new_events s (extend evs s) = evs.
Proof. unfold new_events, extend; simpl. by rewrite drop_app_length. Qed.

Lemma extend_nil {St} (s : state St) : extend [] s = s.
Proof. destruct s; unfold extend; simpl. by rewrite app_nil_r. Qed.

Lemma extend_app {St} (evs1 evs2 : list event) (s : state St) :
  extend evs2 (extend evs1 s) = extend (evs1 ++ evs2) s.
Proof. unfold extend; simpl. by rewrite app_assoc. Qed.

Section hoare_facts.
Context {St : Type} `{VectorStore St}.

Lemma advance_nil (s : state St) : advance [] s = s.
Proof. destruct s; unfold advance; simpl. by rewrite app_nil_r. Qed.

Lemma advance_app (evs1 evs2 : list event) (s : state St) :
  advance evs2 (advance evs1 s) = advance (evs1 ++ evs2) s.
Proof.
  unfold advance; simpl. by rewrite add_calls_app, foldl_app, app_assoc.
Qed.

Lemma advance_silent (evs : list event) (s : state St) :
  add_calls evs = [] → advance evs s = extend evs s.
Proof. intros Hevs. unfold advance, extend. by rewrite Hevs. Qed.

Lemma new_events_advance (evs : list event) (s : state St) :
  new_events s (advance evs s) = evs.
Proof. unfold new_events, advance; simpl. by rewrite drop_app_length. Qed.

Lemma post_mono {A} (c : M St A) (Q Q' : result A → list event → Prop) :
  post c Q → (∀ r evs, Q r evs → Q' r evs) → post c Q'.
Proof.
  intros Hc HQ s. destruct (Hc s) as (r & evs & Hrun & Hr). eauto.
Qed.

Lemma post_ret {A} (a : A) (Q : result A → list event → Prop) :
  Q (Ok a) [] → post (ret a) Q.
Proof. intros HQ s. exists (Ok a), []. by rewrite advance_nil. Qed.

Lemma post_logger (l : level) (m : message)
    (Q : result unit → list event → Prop) :
  Q (Ok tt) [Log l m] → post (logger l m) Q.
Proof. intros HQ s. by exists (Ok tt), [Log l m]. Qed.

Lemma post_add_documents texts metadatas ids
    (Q : result unit → list event → Prop) :
  Q (Ok tt) [AddDocuments texts metadatas ids] →
  post (vector_store_add_documents texts metadatas ids) Q.
Proof. intros HQ s. by exists (Ok tt), [AddDocuments texts metadatas ids]. Qed.

Lemma post_get_collection_stats (Q : result Stats → list event → Prop) :
  (∀ stats, Q (Ok stats) []) → post vector_store_get_collection_stats Q.
Proof.
  intros HQ s. exists (Ok (get_collection_stats (vs s))), [].
  by rewrite advance_nil.
Qed.

Lemma post_bind {A B} (c : M St A) (k : A → M St B)
    (Q1 : result A → list event → Prop) (Q : result B → list event → Prop) :
  post c Q1 →
  (∀ a evs1, Q1 (Ok a) evs1 → post (k a) (λ r evs2, Q r (evs1 ++ evs2))) →
  (∀ e evs1, Q1 (Raise e) evs1 → Q (Raise e) evs1) →
  post (bind c k) Q.
Proof.
  intros Hc Hk Hraise s. unfold bind.
  destruct (Hc s) as ([a|e] & evs1 & -> & HQ1).
  - destruct (Hk a evs1 HQ1 (advance evs1 s)) as (r & evs2 & -> & HQ).
    exists r, (evs1 ++ evs2). by rewrite advance_app.
  - exists (Raise e), evs1. eauto.
Qed.

Lemma post_logger_then {B} (l : level) (m : message) (k : M St B)
    (Q : result B → list event → Prop) :
  post k (λ r evs, Q r (Log l m :: evs)) → post (logger l m >> k) Q.
Proof.
  intros Hk.
  apply post_bind with (Q1 := λ r evs, r = Ok tt ∧ evs = [Log l m]).
  - by apply post_logger.
  - intros a evs1 [_ Hevs]. by subst evs1.
  - by intros e evs1 [? _].
Qed.

Lemma post_add_documents_then {B} texts metadatas ids (k : M St B)
    (Q : result B → list event → Prop) :
  post k (λ r evs, Q r (AddDocuments texts metadatas ids :: evs)) →
  post (vector_store_add_documents texts metadatas ids >> k) Q.
Proof.
  intros Hk.
  apply post_bind with
    (Q1 := λ r evs, r = Ok tt ∧ evs = [AddDocuments texts metadatas ids]).
  - by apply post_add_documents.
  - intros a evs1 [_ Hevs]. by subst evs1.
  - by intros e evs1 [? _].
Qed.

End hoare_facts.

(** ** One document *)

Section document_facts.
Context `{Chunker} {St : Type} `{VectorStore St}.

Lemma document_step_chunked doc_type n i doc acc chunks (s : state St) :
  chunk_call doc = Ok chunks →
  document_step doc_type n i doc acc s
  = (Ok (acc ++ chunks), extend (progress_events doc_type n i) s).
Proof.
  intros Hcall.
  unfold document_step, try_except, bind, lift, progress_events.
  rewrite Hcall. destruct (decide _); simpl; [done|].
  by rewrite extend_nil.
Qed.

Lemma document_step_skipped doc_type n i doc acc e title (s : state St) :
  chunk_call doc = Raise e →
  doc !! "title" = Some title →
  document_step doc_type n i doc acc s
  = (Ok acc, extend [Log ERROR (MsgErrorProcessing title e)] s).
Proof.
  intros Hcall Htitle.
  unfold document_step, try_except, bind, lift, getitem.
  by rewrite Hcall, Htitle.
Qed.

Lemma document_step_aborted doc_type n i doc acc e (s : state St) :
  chunk_call doc = Raise e →
  doc !! "title" = None →
  document_step doc_type n i doc acc s = (Raise (KeyError "title"), s).
Proof.
  intros Hcall Htitle.
  unfold document_step, try_except, bind, lift, getitem.
  by rewrite Hcall, Htitle.
Qed.

Lemma progress_events_silent doc_type n i :
  add_calls (progress_events doc_type n i) = [] ∧
  recorded_failures (progress_events doc_type n i) = [].
Proof. unfold progress_events. by destruct (decide _). Qed.

Lemma document_step_post doc_type n i doc acc :
  post (document_step doc_type n i doc acc) (λ r evs,
    add_calls evs = [] ∧
    match outcome doc with
    | Chunked chunks => r = Ok (acc ++ chunks) ∧ recorded_failures evs = []
    | Skipped title e => r = Ok acc ∧ recorded_failures evs = [(title, e)]
    | Aborted => r = Raise (KeyError "title") ∧ recorded_failures evs = []
    end).
Proof.
  intros s. unfold outcome.
  destruct (chunk_call doc) as [chunks|e] eqn:Hcall;
    [|destruct (doc !! "title") as [title|] eqn:Htitle].
  - destruct (progress_events_silent doc_type n i) as [Hc Hf].
    exists (Ok (acc ++ chunks)), (progress_events doc_type n i).
    rewrite (document_step_chunked _ _ _ _ _ _ _ Hcall).
    by rewrite advance_silent.
  - exists (Ok acc), [Log ERROR (MsgErrorProcessing title e)].
    by rewrite (document_step_skipped _ _ _ _ _ _ _ _ Hcall Htitle).
  - exists (Raise (KeyError "title")), [].
    rewrite (document_step_aborted _ _ _ _ _ _ _ Hcall Htitle).
    by rewrite advance_nil.
Qed.

Lemma result_map_app (acc chunks : list Chunk) (r : result (list Chunk)) :
  result_map (app (acc ++ chunks)) r
  = result_map (app acc) (result_map (app chunks) r).
Proof. destruct r; simpl; [|done]. by rewrite app_assoc. Qed.

Lemma documents_loop_post doc_type n documents : ∀ i acc,
  post (documents_loop doc_type n i documents acc) (λ r evs,
    r = result_map (app acc) (gathered documents) ∧
    add_calls evs = [] ∧
    recorded_failures evs = failures documents).
Proof.
  induction documents as [|doc rest IH]; intros i acc; simpl.
  - apply post_ret. by rewrite app_nil_r.
  - eapply post_bind; [apply document_step_post|..].
    + intros acc' evs1 [Hc1 Hout].
      eapply post_mono; [apply (IH (S i) acc')|].
      intros r evs2 (-> & Hc2 & Hf2).
      rewrite add_calls_app, recorded_failures_app, Hc1, Hc2, Hf2.
      destruct (outcome doc) as [chunks|title e|];
        destruct Hout as [[= ->] ->]; simpl; [|done].
      by rewrite result_map_app.
    + intros e evs1 [Hc1 Hout].
      destruct (outcome doc) as [chunks|title e'|];
        destruct Hout as [[= <-] ->]; by simpl.
Qed.

End document_facts.

(** ** One source file and the whole run *)

Section source_facts.
Context `{Chunker} `{Upper} {St : Type} `{VectorStore St}.

Lemma gathered_raise documents e :
  gathered documents = Raise e → e = KeyError "title".
Proof.
  induction documents as [|doc rest IH]; simpl; [done|].
  destruct (outcome doc); [|done|congruence].
  destruct (gathered rest); simpl; [done|]. intros [= <-]. by apply IH.
Qed.

Lemma add_chunks_post doc_type chunks total :
  post (add_chunks doc_type chunks total) (λ r evs,
    recorded_failures evs = [] ∧
    r = Ok (total + length chunks) ∧
    add_calls evs = match chunks with
                    | [] => []
                    | _ :: _ => [call_of chunk_id chunks]
                    end).
Proof.
  destruct chunks as [|chunk chunks]; unfold add_chunks.
  - apply post_logger_then, post_ret. by rewrite Nat.add_0_r.
  - apply post_logger_then, post_add_documents_then, post_logger_then.
    by apply post_ret.
Qed.

Lemma source_step_post fs file_path doc_type total :
  post (source_step fs (file_path, doc_type) total) (λ r evs,
    add_calls evs = source_calls fs file_path ∧
    match fs !! file_path with
    | None => r = Ok total ∧ recorded_failures evs = []
    | Some documents =>
        r = result_map (λ chunks, total + length chunks) (gathered documents) ∧
        recorded_failures evs = failures documents
    end).
Proof.
  unfold source_step, source_calls.
  destruct (fs !! file_path) as [documents|].
  - do 2 apply post_logger_then.
    eapply post_bind; [apply documents_loop_post|..].
    + intros chunks evs1 (Hr & Hc1 & Hf1). simpl in Hr.
      eapply post_mono; [apply add_chunks_post|].
      intros r evs2 (Hf2 & -> & Hc2). simpl.
      rewrite !add_calls_app, !recorded_failures_app, Hc1, Hf1, Hc2, Hf2.
      destruct (gathered documents) as [chunks'|]; simplify_eq/=.
      rewrite app_nil_r. by destruct chunks'.
    + intros e evs1 (Hr & Hc1 & Hf1). simpl in Hr. simpl.
      rewrite Hc1, Hf1.
      by destruct (gathered documents); simplify_eq/=.
  - apply post_logger_then. by apply post_ret.
Qed.

Lemma source_step_raises fs file_path doc_type total :
  post (source_step fs (file_path, doc_type) total) (λ r evs,
    add_calls evs = source_calls fs file_path ∧
    if source_raises fs file_path then r = Raise (KeyError "title")
    else ∃ total', r = Ok total').
Proof.
  eapply post_mono; [apply source_step_post|].
  intros r evs [Hc Hr]. split; [done|]. unfold source_raises.
  destruct (fs !! file_path) as [documents|]; destruct Hr as [-> _]; [|eauto].
  destruct (gathered documents) as [chunks|e] eqn:Hg; simpl; [eauto|].
  by rewrite (gathered_raise _ _ Hg).
Qed.

Lemma sources_post fs files : ∀ total,
  post (for_each (source_step fs) files total) (λ r evs,
    add_calls evs = run_calls fs files).
Proof.
  induction files as [|[file_path doc_type] rest IH]; intros total; simpl.
  - by apply post_ret.
  - eapply post_bind; [apply source_step_raises|..].
    + intros total' evs1 [Hc1 Hr].
      eapply post_mono; [apply IH|].
      intros r evs2 Hc2. rewrite add_calls_app, Hc1, Hc2.
      by destruct (source_raises fs file_path).
    + intros e evs1 [Hc1 Hr]. rewrite Hc1.
      destruct (source_raises fs file_path); [by rewrite app_nil_r|].
      by destruct Hr.
Qed.

Lemma source_counts_post (counts : list (string * nat)) :
  post (for_each (λ '(source, count) _,
                    logger INFO (MsgSourceCount (upper source) count))
          counts tt)
    (λ r evs, add_calls evs = []).
Proof.
  induction counts as [|[source count] rest IH]; simpl.
  - by apply post_ret.
  - eapply post_bind with (Q1 := λ r evs, add_calls evs = []).
    + by apply post_logger.
    + intros [] evs1 Hc1. eapply post_mono; [apply IH|].
      intros r evs2 Hc2. by rewrite add_calls_app, Hc1, Hc2.
    + done.
Qed.

Lemma report_statistics_post total :
  post (report_statistics total) (λ r evs, add_calls evs = []).
Proof.
  unfold report_statistics.
  eapply post_bind with (Q1 := λ r evs, evs = []).
  - by apply post_get_collection_stats.
  - intros stats _ ->. do 5 apply post_logger_then.
    apply source_counts_post.
  - by intros e _ ->.
Qed.

Lemma run_post fs :
  post (process_and_add_documentation fs) (λ r evs,
    add_calls evs = run_calls fs scraped_files).
Proof.
  unfold process_and_add_documentation. apply post_logger_then.
  eapply post_bind; [apply sources_post|..]; [|done].
  intros total evs1 Hc1.
  eapply post_mono; [apply report_statistics_post|].
  intros r evs2 Hc2. simpl. by rewrite add_calls_app, Hc1, Hc2, app_nil_r.
Qed.

(** The calls of a run are those of its source files, whatever the
    store holds. *)
Lemma run_add_calls fs (v : St) :
  add_calls (trace (process_and_add_documentation fs (initial v)).2)
  = run_calls fs scraped_files.
Proof.
  destruct (run_post fs (initial v)) as (r & evs & -> & Hc). by simpl.
Qed.

Lemma run_calls_shape fs files call :
  call ∈ run_calls fs files →
  ∃ chunks, chunks ≠ [] ∧ call = call_of chunk_id chunks.
Proof.
  induction files as [|[file_path doc_type] rest IH]; simpl.
  - by intros ?%elem_of_nil.
  - intros [Hin|Hin]%elem_of_app.
    + unfold source_calls in Hin.
      destruct (fs !! file_path) as [documents|]; [|by apply elem_of_nil in Hin].
      destruct (gathered documents) as [[|chunk chunks]|];
        try by apply elem_of_nil in Hin.
      apply list_elem_of_singleton in Hin as ->.
      by exists (chunk :: chunks).
    + destruct (source_raises fs file_path); [by apply elem_of_nil in Hin|].
      by apply IH.
Qed.

End source_facts.

(** ** Identifiers *)

Lemma occurs_append c (s1 s2 : string) :
  occurs c (s1 +:+ s2) = occurs c s1 || occurs c s2.
Proof.
  induction s1 as [|c' s1 IH]; simpl; [done|]. by rewrite IH, orb_assoc.
Qed.

Lemma pretty_N_go_underscore (x : N) (s : string) :
  occurs "_" (pretty_N_go x s) = occurs "_" s.
Proof.
  revert s. induction (N.lt_wf_0 x) as [x _ IH]; intros s.
  destruct (decide (x = 0)%N) as [->|Hx]; [done|].
  rewrite pretty_N_go_step by lia.
  rewrite IH by (apply N.div_lt; lia).
  unfold pretty_N_char. by repeat case_match.
Qed.

(** The decimal rendering of a position holds no underscore. *)
Lemma pretty_nat_underscore (k : nat) : occurs "_" (pretty k) = false.
Proof.
  unfold pretty, pretty_nat, pretty, pretty_N.
  case_decide; [done|]. by rewrite pretty_N_go_underscore.
Qed.

Lemma append_underscore_inj (s1 s2 d1 d2 : string) :
  occurs "_" d1 = false → occurs "_" d2 = false →
  s1 +:+ String "_" d1 = s2 +:+ String "_" d2 → s1 = s2 ∧ d1 = d2.
Proof.
  intros Hd1 Hd2. revert s2.
  induction s1 as [|c1 s1 IH]; intros [|c2 s2]; simpl; intros Heq.
  - by injection Heq as ->.
  - injection Heq as <- ->. rewrite occurs_append in Hd1. simpl in Hd1.
    by rewrite orb_true_r in Hd1.
  - injection Heq as -> <-. rewrite occurs_append in Hd2. simpl in Hd2.
    by rewrite orb_true_r in Hd2.
  - injection Heq as -> Heq. by destruct (IH _ Heq) as [-> ->].
Qed.

Section id_facts.
Context `{Chunker}.

(** An id determines the source it starts with and the position it ends
    with. *)
Lemma chunk_id_inj i j (c1 c2 : Chunk) :
  chunk_id i c1 = chunk_id j c2 →
  cm_source (metadata c1) = cm_source (metadata c2) ∧ i = j.
Proof.
  unfold chunk_id. intros Heq.
  change ("_" +:+ pretty i) with (String "_" (pretty i)) in Heq.
  change ("_" +:+ pretty j) with (String "_" (pretty j)) in Heq.
  apply append_underscore_inj in Heq as [Hsource Hpos];
    auto using pretty_nat_underscore.
  split; [done|]. by apply (inj pretty).
Qed.

Lemma call_of_lookup chunks k m id :
  (call_of chunk_id chunks).1.2 !! k = Some m →
  (call_of chunk_id chunks).2 !! k = Some id →
  ∃ chunk, chunks !! k = Some chunk ∧ m = metadata chunk ∧
           id = chunk_id k chunk.
Proof.
  unfold call_of; simpl. rewrite list_lookup_fmap, list_lookup_imap.
  destruct (chunks !! k) as [chunk|]; simpl; [|done].
  intros [= <-] [= <-]. eauto.
Qed.

Lemma chunk_ids_NoDup (chunks : list Chunk) : NoDup (imap chunk_id chunks).
Proof.
  apply NoDup_alt. intros i j id.
  rewrite !list_lookup_imap_Some.
  intros (c1 & _ & ->) (c2 & _ & Heq). by apply chunk_id_inj in Heq as [_ ?].
Qed.

End id_facts.

(** ** Identifier assignment *)

Section id_claims.
Context `{Chunker} `{Upper} {St : Type} `{VectorStore St}.

(** C1 (as amended): every id passed to [add_documents] is the source of
    the chunk's metadata, an underscore and the decimal position of the
    chunk in the list gathered for its source file: a function of the
    source and of a counter over the whole group, not of the url or the
    chunk index. *)
Theorem chunk_id_is_source_and_position fs (v : St) c texts metadatas ids k m :
  add_calls (trace (process_and_add_documentation fs (initial v)).2) !! c
    = Some (texts, metadatas, ids) →
  metadatas !! k = Some m →
  ids !! k = Some (cm_source m +:+ "_" +:+ pretty k).
Proof.
  rewrite run_add_calls. intros Hcall%list_elem_of_lookup_2.
  apply run_calls_shape in Hcall as (chunks & _ & [= -> -> ->]).
  rewrite list_lookup_fmap, list_lookup_imap.
  destruct (chunks !! k) as [chunk|]; simpl; [|done]. by intros [= <-].
Qed.

(** C2: two runs on the same files with the same chunker pass the same
    texts, metadata and ids to [add_documents], call by call, whatever the
    store holds when each run starts; in particular when the second run
    starts from the store the first one left. *)
Theorem rerun_assigns_same_ids fs (v1 v2 : St) :
  add_calls (trace (process_and_add_documentation fs (initial v1)).2)
  = add_calls (trace (process_and_add_documentation fs (initial v2)).2).
Proof. by rewrite !run_add_calls. Qed.

(** C4 (as amended): the ids of one [add_documents] call are pairwise
    distinct, and two chunks of any two calls of a run receive the same id
    exactly when their metadata name the same source and they sit at the
    same position of their call. *)
Theorem ids_distinct_up_to_source_and_position fs (v : St)
    c1 texts1 metadatas1 ids1 c2 texts2 metadatas2 ids2 :
  add_calls (trace (process_and_add_documentation fs (initial v)).2) !! c1
    = Some (texts1, metadatas1, ids1) →
  add_calls (trace (process_and_add_documentation fs (initial v)).2) !! c2
    = Some (texts2, metadatas2, ids2) →
  NoDup ids1 ∧
  ∀ k1 k2 m1 m2 id1 id2,
    metadatas1 !! k1 = Some m1 → ids1 !! k1 = Some id1 →
    metadatas2 !! k2 = Some m2 → ids2 !! k2 = Some id2 →
    id1 = id2 ↔ cm_source m1 = cm_source m2 ∧ k1 = k2.
Proof.
  rewrite run_add_calls.
  intros Hcall1%list_elem_of_lookup_2 Hcall2%list_elem_of_lookup_2.
  apply run_calls_shape in Hcall1 as (chunks1 & _ & [= -> -> ->]).
  apply run_calls_shape in Hcall2 as (chunks2 & _ & [= -> -> ->]).
  split; [apply chunk_ids_NoDup|].
  intros k1 k2 m1 m2 id1 id2 Hm1 Hid1 Hm2 Hid2.
  destruct (call_of_lookup chunks1 k1 m1 id1 Hm1 Hid1)
    as (chunk1 & _ & -> & ->).
  destruct (call_of_lookup chunks2 k2 m2 id2 Hm2 Hid2)
    as (chunk2 & _ & -> & ->).
  split; [apply chunk_id_inj|].
  unfold chunk_id. by intros [-> ->].
Qed.

End id_claims.

(** ** Failing documents *)

Section failure_claims.
Context `{Chunker} {St : Type} `{VectorStore St}.

(** A document without a title never gets through the [try] block. *)
Lemma untitled_aborted (doc : Doc) :
  doc !! "title" = None → outcome doc = Aborted.
Proof.
  intros Htitle. unfold outcome, chunk_call, getitem. rewrite Htitle.
  by destruct (doc !! "content").
Qed.

(** The handler of line 67 reads [doc['title']] again: on a document
    without a title the loop ends there by [KeyError], with nothing
    recorded and the remaining documents untouched. *)
Lemma untitled_document_ends_loop doc_type n i doc rest acc (s : state St) :
  doc !! "title" = None →
  documents_loop doc_type n i (doc :: rest) acc s
  = (Raise (KeyError "title"), s).
Proof.
  intros Htitle. simpl. unfold bind.
  assert (∃ e, chunk_call doc = Raise e) as [e Hcall].
  { unfold chunk_call, getitem. rewrite Htitle.
    destruct (doc !! "content"); simpl; eauto. }
  by rewrite (document_step_aborted _ _ _ _ _ _ _ Hcall Htitle).
Qed.

Lemma missing_field_raises (doc : Doc) :
  doc !! "content" = None ∨ doc !! "source" = None ∨ doc !! "url" = None →
  ∃ key, doc !! key = None ∧ chunk_call doc = Raise (KeyError key).
Proof.
  intros Hmissing. unfold chunk_call, getitem.
  destruct (doc !! "content") eqn:Hcontent; simpl;
    [|by exists "content"].
  destruct (doc !! "title") eqn:Htitle; simpl; [|by exists "title"].
  destruct (doc !! "source") eqn:Hsource; simpl; [|by exists "source"].
  destruct (doc !! "url") eqn:Hurl; simpl; [|by exists "url"].
  by destruct Hmissing as [?|[?|?]].
Qed.

(** C9: a document that has a title but no source or no url is skipped:
    the loop records one error under its title, keeps the chunks gathered
    so far and goes on with the remaining documents. *)
Theorem missing_source_or_url_is_skipped doc_type n i doc rest acc
    (s : state St) title :
  doc !! "title" = Some title →
  doc !! "source" = None ∨ doc !! "url" = None →
  ∃ key,
    doc !! key = None ∧
    documents_loop doc_type n i (doc :: rest) acc s
    = documents_loop doc_type n (S i) rest acc
        (extend [Log ERROR (MsgErrorProcessing title (KeyError key))] s).
Proof.
  intros Htitle Hmissing.
  destruct (missing_field_raises doc) as (key & Hkey & Hcall); [tauto|].
  exists key. split; [done|]. simpl. unfold bind.
  by rewrite (document_step_skipped _ _ _ _ _ _ _ _ Hcall Htitle).
Qed.

(** C10: a document without [doc_type] is chunked exactly as the same
    document with [doc_type] set to ['general'], and one without
    [scraped_at] as the same document with [scraped_at] set to the empty
    string, so the absence of an optional field never causes a rejection.
    A document that has its four required fields reaches the chunker; the
    metadata passed along carry title, source and url as they are,
    ['general'] for a missing [doc_type] and the empty string for a missing
    [scraped_at]; and when the chunker returns, the chunks are gathered and
    no failure is recorded. *)
Theorem optional_fields_default (doc : Doc) :
  (doc !! "doc_type" = None →
   chunk_call doc = chunk_call (<["doc_type" := "general"]> doc)) ∧
  (doc !! "scraped_at" = None →
   chunk_call doc = chunk_call (<["scraped_at" := ""]> doc)) ∧
  ∀ text title source url,
    doc !! "content" = Some text →
    doc !! "title" = Some title →
    doc !! "source" = Some source →
    doc !! "url" = Some url →
    ∃ md,
      chunk_call doc = chunk_document text md ∧
      md_title md = title ∧ md_source md = source ∧ md_url md = url ∧
      md_doc_type md = match doc !! "doc_type" with
                       | Some doc_type => doc_type
                       | None => "general"
                       end ∧
      md_scraped_at md = match doc !! "scraped_at" with
                         | Some scraped_at => scraped_at
                         | None => ""
                         end ∧
      ∀ chunks, chunk_document text md = Ok chunks →
        ∀ doc_type n i acc (s : state St),
          let after := document_step doc_type n i doc acc s in
          after.1 = Ok (acc ++ chunks) ∧
          recorded_failures (new_events s after.2) = [].
Proof.
  split_and!.
  - intros Hnone. unfold chunk_call, getitem.
    rewrite lookup_insert_eq, !lookup_insert_ne, Hnone by done. done.
  - intros Hnone. unfold chunk_call, getitem.
    rewrite lookup_insert_eq, !lookup_insert_ne, Hnone by done. done.
  - intros text title source url Htext Htitle Hsource Hurl.
    set (md := {| md_title := title; md_source := source; md_url := url;
                  md_doc_type := default "general" (doc !! "doc_type");
                  md_scraped_at := default "" (doc !! "scraped_at") |}).
    assert (chunk_call doc = chunk_document text md) as Hcall.
    { unfold chunk_call, getitem. by rewrite Htext, Htitle, Hsource, Hurl. }
    exists md. split_and!; try done.
    intros chunks Hchunks doc_type n i acc s. rewrite <- Hcall in Hchunks.
    rewrite (document_step_chunked _ _ _ _ _ _ _ Hchunks). simpl.
    split; [done|]. rewrite new_events_extend.
    apply progress_events_silent.
Qed.

End failure_claims.

(** ** Forwarding the chunks of one source file *)

Section forwarding_claims.
Context `{Chunker} {St : Type} `{VectorStore St}.

Lemma documents_loop_result doc_type n i documents acc (s : state St) :
  (documents_loop doc_type n i documents acc s).1
  = result_map (app acc) (gathered documents).
Proof.
  destruct (documents_loop_post doc_type n documents i acc s)
    as (r & evs & -> & -> & _). done.
Qed.

Lemma gathered_of_loop doc_type n documents chunks (s : state St) :
  (documents_loop doc_type n 0 documents [] s).1 = Ok chunks →
  gathered documents = Ok chunks.
Proof.
  rewrite documents_loop_result.
  destruct (gathered documents); simpl; congruence.
Qed.

(** What a run of [source_step] shows: its result, its calls, the failures
    it records, and the store it leaves. *)
Lemma source_step_observed fs file_path doc_type total (s : state St) :
  let after := source_step fs (file_path, doc_type) total s in
  add_calls (new_events s after.2) = source_calls fs file_path ∧
  after.2 = advance (new_events s after.2) s ∧
  match fs !! file_path with
  | None => after.1 = Ok total ∧ recorded_failures (new_events s after.2) = []
  | Some documents =>
      after.1 = result_map (λ chunks, total + length chunks)
                  (gathered documents) ∧
      recorded_failures (new_events s after.2) = failures documents
  end.
Proof.
  destruct (source_step_post fs file_path doc_type total s)
    as (r & evs & -> & Hcalls & Hrest).
  simpl. by rewrite new_events_advance.
Qed.

Lemma gathered_app documents1 documents2 :
  gathered (documents1 ++ documents2)
  = result_bind (gathered documents1) (λ chunks1,
      result_map (app chunks1) (gathered documents2)).
Proof.
  induction documents1 as [|doc rest IH]; simpl.
  - by destruct (gathered documents2).
  - destruct (outcome doc); [|done..]. rewrite IH.
    destruct (gathered rest); simpl; [|done].
    destruct (gathered documents2); simpl; [|done]. by rewrite app_assoc.
Qed.

Lemma gathered_chunked doc chunks rest :
  chunk_call doc = Ok chunks →
  gathered (doc :: rest) = result_map (app chunks) (gathered rest).
Proof. intros Hcall. simpl. unfold outcome. by rewrite Hcall. Qed.

(** C5: a source file whose documents yield at least one chunk gets one
    [add_documents] call; its three sequences have the length of the chunk
    list, and position [k] of each holds the content, the metadata and the
    id of the [k]-th chunk. *)
Theorem one_aligned_call_per_source fs file_path doc_type total
    (s s0 : state St) documents chunks :
  fs !! file_path = Some documents →
  (documents_loop doc_type (length documents) 0 documents [] s0).1
    = Ok chunks →
  chunks ≠ [] →
  let after := source_step fs (file_path, doc_type) total s in
  ∃ texts metadatas ids,
    after.1 = Ok (total + length chunks) ∧
    add_calls (new_events s after.2) = [(texts, metadatas, ids)] ∧
    length texts = length chunks ∧
    length metadatas = length chunks ∧
    length ids = length chunks ∧
    ∀ k chunk, chunks !! k = Some chunk →
      texts !! k = Some (content chunk) ∧
      metadatas !! k = Some (metadata chunk) ∧
      ids !! k = Some (chunk_id k chunk).
Proof.
  intros Hfile Hloop%gathered_of_loop Hchunks after.
  destruct (source_step_observed fs file_path doc_type total s)
    as (Hcalls & _ & Hrest).
  fold after in Hcalls, Hrest. unfold source_calls in Hcalls.
  rewrite Hfile in Hcalls, Hrest. rewrite Hloop in Hcalls, Hrest.
  destruct Hrest as [Hresult _].
  exists (content <$> chunks), (metadata <$> chunks), (imap chunk_id chunks).
  split_and!.
  - done.
  - by destruct chunks.
  - by rewrite length_fmap.
  - by rewrite length_fmap.
  - by rewrite length_imap.
  - intros k chunk Hk.
    by rewrite !list_lookup_fmap, list_lookup_imap, Hk.
Qed.


(** C7: a document for which the chunker returns no chunk adds nothing to
    the [add_documents] call of its source file, which is the one the file
    would get without that document, and leaves the same store; and a
    source file that yields no chunk at all gets no call and leaves the
    store as it was. *)
Theorem document_without_chunks_not_forwarded fs file_path doc_type total
    (s s0 : state St) documents1 doc documents2 :
  chunk_call doc = Ok [] →
  let with_doc :=
    source_step (<[file_path := documents1 ++ doc :: documents2]> fs)
      (file_path, doc_type) total s in
  let without_doc :=
    source_step (<[file_path := documents1 ++ documents2]> fs)
      (file_path, doc_type) total s in
  add_calls (new_events s with_doc.2) = add_calls (new_events s without_doc.2) ∧
  vs with_doc.2 = vs without_doc.2 ∧
  ((documents_loop doc_type (length (documents1 ++ doc :: documents2)) 0
      (documents1 ++ doc :: documents2) [] s0).1 = Ok [] →
   add_calls (new_events s with_doc.2) = [] ∧ vs with_doc.2 = vs s).
Proof.
  intros Hcall with_doc without_doc.
  destruct (source_step_observed
              (<[file_path := documents1 ++ doc :: documents2]> fs)
              file_path doc_type total s) as (Hcalls1 & Hstate1 & _).
  destruct (source_step_observed
              (<[file_path := documents1 ++ documents2]> fs)
              file_path doc_type total s) as (Hcalls2 & Hstate2 & _).
  fold with_doc in Hcalls1, Hstate1. fold without_doc in Hcalls2, Hstate2.
  unfold source_calls in Hcalls1, Hcalls2.
  rewrite lookup_insert_eq in Hcalls1, Hcalls2.
  assert (gathered (documents1 ++ doc :: documents2)
          = gathered (documents1 ++ documents2)) as Hsame.
  { rewrite !gathered_app, (gathered_chunked _ _ _ Hcall).
    destruct (gathered documents1); simpl; [|done].
    by destruct (gathered documents2). }
  rewrite Hsame in Hcalls1.
  assert (add_calls (new_events s with_doc.2)
          = add_calls (new_events s without_doc.2)) as Hcalls
    by congruence.
  split_and!.
  - done.
  - rewrite Hstate1, Hstate2. unfold advance; simpl. by rewrite Hcalls.
  - intros Hloop%gathered_of_loop. rewrite Hsame in Hloop.
    rewrite Hloop in Hcalls1. split; [done|].
    rewrite Hstate1. unfold advance; simpl. by rewrite Hcalls1.
Qed.

(** C8: the chunks the chunker returned for one document of a source file
    sit in the call of that file in one block, in the order the chunker
    gave them: the [j]-th chunk of the document is at position
    [offset + j] of the texts, the metadata and the ids. *)
Theorem chunks_keep_document_order fs file_path doc_type total
    (s s0 : state St) documents1 doc documents2 doc_chunks chunks :
  fs !! file_path = Some (documents1 ++ doc :: documents2) →
  chunk_call doc = Ok doc_chunks →
  (documents_loop doc_type (length (documents1 ++ doc :: documents2)) 0
     (documents1 ++ doc :: documents2) [] s0).1 = Ok chunks →
  let after := source_step fs (file_path, doc_type) total s in
  ∃ offset, ∀ j chunk, doc_chunks !! j = Some chunk →
    ∃ texts metadatas ids,
      add_calls (new_events s after.2) = [(texts, metadatas, ids)] ∧
      texts !! (offset + j) = Some (content chunk) ∧
      metadatas !! (offset + j) = Some (metadata chunk) ∧
      ids !! (offset + j) = Some (chunk_id (offset + j) chunk).
Proof.
  intros Hfile Hcall Hloop%gathered_of_loop after.
  destruct (source_step_observed fs file_path doc_type total s)
    as (Hcalls & _ & _).
  fold after in Hcalls. unfold source_calls in Hcalls.
  rewrite Hfile, Hloop in Hcalls.
  rewrite gathered_app, (gathered_chunked _ _ _ Hcall) in Hloop.
  destruct (gathered documents1) as [before|]; simpl in Hloop; [|done].
  destruct (gathered documents2) as [behind|]; simpl in Hloop; [|done].
  injection Hloop as <-.
  exists (length before). intros j chunk Hj.
  assert ((before ++ doc_chunks ++ behind) !! (length before + j)
          = Some chunk) as Hk.
  { rewrite lookup_app_r by lia.
    replace (length before + j - length before) with j by lia.
    by rewrite lookup_app_l_Some with (x := chunk). }
  exists (content <$> before ++ doc_chunks ++ behind),
    (metadata <$> before ++ doc_chunks ++ behind),
    (imap chunk_id (before ++ doc_chunks ++ behind)).
  split_and!.
  - rewrite Hcalls.
    destruct (before ++ doc_chunks ++ behind); [|done].
    by rewrite lookup_nil in Hk.
  - by rewrite list_lookup_fmap, Hk.
  - by rewrite list_lookup_fmap, Hk.
  - by rewrite list_lookup_imap, Hk.
Qed.

End forwarding_claims.

(** ** Concrete runs *)

Section concrete.
Import Examples.

(** C1 (as stated) fails: no function of source, url and chunk index gives
    the ids of these two runs, since the only chunk of [views] is
    ["django_0"] when the document is ingested alone and ["django_2"] when
    it comes behind [models]. *)
Lemma id_not_function_of_source_url_index :
  ¬ ∃ f : string → string → nat → string,
      ∀ fs, fs ∈ [fs_alone; fs_behind] →
      ∀ c texts metadatas ids k m id,
        add_calls (trace (run fs).2) !! c = Some (texts, metadatas, ids) →
        metadatas !! k = Some m →
        ids !! k = Some id →
        id = f (cm_source m) (cm_url m) (cm_chunk_index m).
Proof.
  intros [f Hf].
  assert (add_calls (trace (run fs_alone).2) !! 0
          = Some (["def view"], [views_metadata], ["django_0"])) as Halone
    by (vm_compute; reflexivity).
  assert (∃ texts m0 m1,
            add_calls (trace (run fs_behind).2) !! 0
            = Some (texts, [m0; m1; views_metadata],
                    ["django_0"; "django_1"; "django_2"]))
    as (texts & m0 & m1 & Hbehind)
    by (eexists _, _, _; vm_compute; reflexivity).
  assert (fs_alone ∈ [fs_alone; fs_behind]) as Hin1
    by apply list_elem_of_here.
  assert (fs_behind ∈ [fs_alone; fs_behind]) as Hin2
    by apply list_elem_of_further, list_elem_of_here.
  pose proof (Hf fs_alone Hin1 _ _ _ _ 0 views_metadata _ Halone
                eq_refl eq_refl) as H0.
  pose proof (Hf fs_behind Hin2 _ _ _ _ 2 views_metadata _ Hbehind
                eq_refl eq_refl) as H2.
  simpl in H0, H2. congruence.
Qed.

(** C1 (as amended) on [fs_behind]: the chunk of [views] is third in the
    call and gets the counter 2. *)
Lemma chunk_id_is_source_and_position_witness :
  ∃ texts metadatas ids,
    add_calls (trace (run fs_behind).2) !! 0 = Some (texts, metadatas, ids) ∧
    metadatas !! 2 = Some views_metadata ∧
    ids !! 2 = Some "django_2".
Proof.
  eexists _, _, _. split_and!; [vm_compute; reflexivity|reflexivity|].
  eapply (chunk_id_is_source_and_position fs_behind ∅ 0 _ _ _ 2
            views_metadata); [vm_compute; reflexivity|reflexivity].
Defined.

(** C3 fails on the script: with a first document that has no title, the
    run ends by [KeyError] raised in the handler; no failure is recorded,
    the well-formed second document is not chunked, nothing is forwarded
    and the second source file is not read. *)
Theorem untitled_document_aborts_run :
  run fs_untitled
  = (Raise (KeyError "title"),
     {| vs := ∅;
        trace := [Log INFO MsgStarting;
                  Log INFO (MsgProcessing "Django" django);
                  Log INFO (MsgLoaded 2 "Django")] |}).
Proof. vm_compute. reflexivity. Qed.

(** C4 (as stated) fails: the two source files of [fs_shared] hold one
    document each, with different urls and the same source; both chunks
    get the id ["docs_0"], and the upsert store ends with one entry for
    the two chunks added. *)
Lemma ids_clash_across_calls :
  let calls := add_calls (trace (run fs_shared).2) in
  ¬ (∀ c1 c2 texts1 metadatas1 ids1 texts2 metadatas2 ids2 k1 k2 m1 m2 id,
       calls !! c1 = Some (texts1, metadatas1, ids1) →
       calls !! c2 = Some (texts2, metadatas2, ids2) →
       metadatas1 !! k1 = Some m1 → ids1 !! k1 = Some id →
       metadatas2 !! k2 = Some m2 → ids2 !! k2 = Some id →
       (cm_source m1, cm_url m1, cm_chunk_index m1)
       = (cm_source m2, cm_url m2, cm_chunk_index m2)) ∧
  calls = [(["first steps"], [guide_metadata], ["docs_0"]);
           (["reference"], [manual_metadata], ["docs_0"])] ∧
  (run fs_shared).1 = Ok tt ∧
  size (vs (run fs_shared).2) = 1.
Proof.
  assert (add_calls (trace (run fs_shared).2)
          = [(["first steps"], [guide_metadata], ["docs_0"]);
             (["reference"], [manual_metadata], ["docs_0"])]) as Hcalls
    by (vm_compute; reflexivity).
  split_and!; [|done|vm_compute; reflexivity..].
  intros Hunique. rewrite Hcalls in Hunique.
  by specialize (Hunique 0 1 _ _ _ _ _ _ 0 0 _ _ "docs_0"
                   eq_refl eq_refl eq_refl eq_refl eq_refl eq_refl).
Qed.

(** C4 (as amended) on the two calls of [fs_shared]. *)
Lemma ids_distinct_up_to_source_and_position_witness :
  NoDup ["docs_0"] ∧
  ∀ k1 k2 m1 m2 id1 id2,
    [guide_metadata] !! k1 = Some m1 → ["docs_0"] !! k1 = Some id1 →
    [manual_metadata] !! k2 = Some m2 → ["docs_0"] !! k2 = Some id2 →
    id1 = id2 ↔ cm_source m1 = cm_source m2 ∧ k1 = k2.
Proof.
  apply (ids_distinct_up_to_source_and_position fs_shared ∅
           0 ["first steps"] _ _ 1 ["reference"] _ _);
    vm_compute; reflexivity.
Defined.

(** C5 on [fs_behind]: one call with the three chunks of [models] and
    [views]. *)
Lemma one_aligned_call_per_source_witness :
  let chunks := chunks_of models ++ chunks_of views in
  let after := source_step fs_behind (django, "Django") 0 empty_state in
  ∃ texts metadatas ids,
    after.1 = Ok (0 + length chunks) ∧
    add_calls (new_events empty_state after.2) = [(texts, metadatas, ids)] ∧
    length texts = length chunks ∧
    length metadatas = length chunks ∧
    length ids = length chunks ∧
    ∀ k chunk, chunks !! k = Some chunk →
      texts !! k = Some (content chunk) ∧
      metadatas !! k = Some (metadata chunk) ∧
      ids !! k = Some (chunk_id k chunk).
Proof.
  apply (one_aligned_call_per_source fs_behind django "Django" 0
           empty_state empty_state [models; views]);
    [reflexivity|vm_compute; reflexivity|by vm_compute].
Defined.


(** C7 on a batch with the empty document [blank] between two others, and
    on a batch that holds [blank] alone. *)
Lemma document_without_chunks_not_forwarded_witness :
  (let with_doc :=
     source_step (<[django := [views] ++ blank :: [models]]> ∅)
       (django, "Django") 0 empty_state in
   let without_doc :=
     source_step (<[django := [views] ++ [models]]> ∅)
       (django, "Django") 0 empty_state in
   add_calls (new_events empty_state with_doc.2)
   = add_calls (new_events empty_state without_doc.2) ∧
   vs with_doc.2 = vs without_doc.2) ∧
  (let only_blank :=
     source_step (<[django := [] ++ blank :: []]> ∅)
       (django, "Django") 0 empty_state in
   add_calls (new_events empty_state only_blank.2) = [] ∧
   vs only_blank.2 = vs empty_state).
Proof.
  split.
  - destruct (document_without_chunks_not_forwarded ∅ django "Django" 0
                empty_state empty_state [views] blank [models])
      as (Hcalls & Hstore & _); [vm_compute; reflexivity|]. done.
  - destruct (document_without_chunks_not_forwarded ∅ django "Django" 0
                empty_state empty_state [] blank [])
      as (_ & _ & Hnone); [vm_compute; reflexivity|].
    apply Hnone. vm_compute; reflexivity.
Defined.

(** C8 on a file that holds [views] and then [models]: the two chunks of
    [models], in the order the chunker made them (chunk index 0, then 1),
    sit side by side in the texts, the metadata and the ids of the call,
    behind the chunk of [views]. *)
Lemma chunks_keep_document_order_witness :
  let fs : gmap string (list Doc) := {[ django := [views] ++ models :: [] ]} in
  let after := source_step fs (django, "Django") 0 empty_state in
  length (chunks_of models) = 2 ∧
  ∃ offset texts metadatas ids,
    add_calls (new_events empty_state after.2) = [(texts, metadatas, ids)] ∧
    texts !! (offset + 0) = Some "class M" ∧
    texts !! (offset + 1) = Some "fields" ∧
    cm_chunk_index <$> metadatas !! (offset + 0) = Some 0 ∧
    cm_chunk_index <$> metadatas !! (offset + 1) = Some 1 ∧
    ids !! (offset + 0) = Some ("django_" +:+ pretty (offset + 0)) ∧
    ids !! (offset + 1) = Some ("django_" +:+ pretty (offset + 1)).
Proof.
  split; [reflexivity|].
  destruct (chunks_keep_document_order
              {[ django := [views] ++ models :: [] ]} django "Django" 0
              empty_state empty_state [views] models []
              (chunks_of models) (chunks_of views ++ chunks_of models))
    as [offset Hblock]; [reflexivity|vm_compute; reflexivity..|].
  edestruct (Hblock 0) as (texts & metadatas & ids & Hcall & Ht0 & Hm0 & Hi0);
    [vm_compute; reflexivity|].
  edestruct (Hblock 1) as (texts' & metadatas' & ids' & Hcall' & Ht1 & Hm1 & Hi1);
    [vm_compute; reflexivity|].
  rewrite Hcall in Hcall'. injection Hcall' as <- <- <-.
  exists offset, texts, metadatas, ids.
  split_and!; [done|exact Ht0|exact Ht1|by rewrite Hm0|by rewrite Hm1
              |exact Hi0|exact Hi1].
Defined.

(** C9 on a document that has a title and no url, ahead of [views]. *)
Lemma missing_source_or_url_is_skipped_witness :
  ∃ key,
    no_url !! key = None ∧
    documents_loop "Django" 2 0 (no_url :: [views]) [] empty_state
    = documents_loop "Django" 2 1 [views] []
        (extend [Log ERROR (MsgErrorProcessing "Nowhere" (KeyError key))]
           empty_state).
Proof.
  apply (missing_source_or_url_is_skipped "Django" 2 0 no_url [views] []
           empty_state "Nowhere"); [vm_compute; reflexivity|].
  right. vm_compute; reflexivity.
Defined.

(** C10 on [views], which has neither [doc_type] nor [scraped_at]. *)
Lemma optional_fields_default_witness :
  chunk_call views = chunk_call (<["doc_type" := "general"]> views) ∧
  chunk_call views = chunk_call (<["scraped_at" := ""]> views) ∧
  ∃ md,
    chunk_call views = chunk_document "def view" md ∧
    md_title md = "Views" ∧ md_source md = "django" ∧ md_url md = "u1" ∧
    md_doc_type md = match views !! "doc_type" with
                     | Some doc_type => doc_type
                     | None => "general"
                     end ∧
    md_scraped_at md = match views !! "scraped_at" with
                       | Some scraped_at => scraped_at
                       | None => ""
                       end ∧
    ∀ chunks, chunk_document "def view" md = Ok chunks →
      ∀ doc_type n i acc (s : state (gmap string (string * ChunkMetadata))),
        let after := document_step doc_type n i views acc s in
        after.1 = Ok (acc ++ chunks) ∧
        recorded_failures (new_events s after.2) = [].
Proof.
  destruct (optional_fields_default (St := gmap string (string * ChunkMetadata))
              views) as (Hdoc_type & Hscraped_at & Hrequired).
  split_and!.
  - apply Hdoc_type. vm_compute; reflexivity.
  - apply Hscraped_at. vm_compute; reflexivity.
  - apply (Hrequired "def view" "Views" "django" "u1");
      vm_compute; reflexivity.
Defined.

End concrete.

(** * Further properties of the script *)

(** ** Which files a run reads *)

Lemma for_each_ext {St A B} (f g : A → B → M St B) (l : list A) :
  Forall (λ x, ∀ acc s, f x acc s = g x acc s) l →
  ∀ acc s, for_each f l acc s = for_each g l acc s.
Proof.
  induction 1 as [|x l Hx _ IH]; intros acc s; simpl; [done|].
  unfold bind. rewrite Hx. destruct (g x acc s) as [[acc'|e] s']; [|done].
  apply IH.
Qed.

Section reading.
Context `{Chunker} `{Upper} {St : Type} `{VectorStore St}.

(** X1: a run looks at the three paths of [scraped_files] and at nothing
    else: two file systems that agree on these paths give the same result,
    the same trace and the same store. *)
Theorem run_reads_only_scraped_files (fs fs' : gmap string (list Doc))
    (s : state St) :
  Forall (λ file, fs !! file.1 = fs' !! file.1) scraped_files →
  process_and_add_documentation fs s = process_and_add_documentation fs' s.
Proof.
  intros Hagree. unfold process_and_add_documentation, bind.
  destruct (logger INFO MsgStarting s) as [[[]|e] s0]; [|done].
  rewrite (for_each_ext (source_step fs) (source_step fs')); [done|].
  eapply Forall_impl; [apply Hagree|].
  intros [file_path doc_type] Hfile acc s1. simpl in Hfile.
  unfold source_step. by rewrite Hfile.
Qed.

End reading.

(** ** A whole batch *)

Section batch_facts.
Context `{Chunker} {St : Type} `{VectorStore St}.

Lemma untitled_outcome (doc : Doc) :
  doc !! "title" = None → outcome doc = Aborted.
Proof.
  intros Htitle. unfold outcome, chunk_call, getitem. rewrite Htitle.
  by destruct (doc !! "content").
Qed.

Lemma gathered_titled documents :
  Forall titled documents →
  gathered documents = Ok (succeeded documents) ∧
  failures documents = failed documents.
Proof.
  induction 1 as [|doc rest [title Htitle] _ [IHg IHf]]; [done|].
  unfold succeeded, failed in *. simpl. unfold outcome.
  rewrite Htitle, IHg, IHf. by destruct (chunk_call doc).
Qed.

Lemma gathered_untitled documents :
  ¬ Forall titled documents → gathered documents = Raise (KeyError "title").
Proof.
  induction documents as [|doc rest IH]; intros Hnot.
  - by destruct Hnot.
  - simpl. destruct (doc !! "title") as [title|] eqn:Htitle.
    + unfold outcome. rewrite Htitle.
      rewrite IH; [by destruct (chunk_call doc)|].
      intros Hrest. apply Hnot. constructor; [by eexists|done].
    + by rewrite untitled_outcome.
Qed.

Lemma failures_app_titled documents rest :
  Forall titled documents →
  failures (documents ++ rest) = failed documents ++ failures rest.
Proof.
  induction 1 as [|doc tail [title Htitle] _ IH]; [done|].
  unfold failed in *. simpl. unfold outcome. rewrite Htitle, IH.
  by destruct (chunk_call doc).
Qed.


(** X3: when the loop meets a document without a title, the source step ends
    by [KeyError] on ['title']: the chunks gathered from the documents
    before it are not forwarded, the store stays as it was, and only the
    failures of the documents before it are on record. *)
Theorem untitled_document_discards_gathered_chunks fs file_path doc_type total
    (s : state St) documents1 doc documents2 :
  fs !! file_path = Some (documents1 ++ doc :: documents2) →
  Forall titled documents1 →
  doc !! "title" = None →
  let after := source_step fs (file_path, doc_type) total s in
  after.1 = Raise (KeyError "title") ∧
  add_calls (new_events s after.2) = [] ∧
  vs after.2 = vs s ∧
  recorded_failures (new_events s after.2) = failed documents1.
Proof.
  intros Hfile Htitled Huntitled after.
  destruct (source_step_observed fs file_path doc_type total s)
    as (Hcalls & Hstate & Hrest).
  fold after in Hcalls, Hstate, Hrest. unfold source_calls in Hcalls.
  rewrite Hfile in Hcalls, Hrest.
  assert (gathered (documents1 ++ doc :: documents2)
          = Raise (KeyError "title")) as Hg.
  { apply gathered_untitled. intros [_ Hdoc%Forall_cons_1]%Forall_app.
    destruct Hdoc as [[title Hdoc] _]. congruence. }
  rewrite Hg in Hcalls, Hrest. destruct Hrest as [Hresult Hfailures].
  split_and!; [done..| |].
  - rewrite Hstate. unfold advance; simpl. by rewrite Hcalls.
  - rewrite Hfailures, failures_app_titled by done.
    simpl. rewrite untitled_outcome by done. by rewrite app_nil_r.
Qed.

End batch_facts.

(** ** The whole run *)

Lemma forwarded_app (t1 t2 : list event) :
  forwarded (t1 ++ t2) = forwarded t1 + forwarded t2.
Proof.
  unfold forwarded. by rewrite add_calls_app, fmap_app, sum_list_with_app.
Qed.

Lemma report_events_silent `{Upper} total stats :
  add_calls (report_events total stats) = [].
Proof.
  unfold report_events. rewrite add_calls_app. simpl.
  induction (default [] (sources stats)) as [|[source count] rest IH]; done.
Qed.

Section run_facts.
Context `{Chunker} `{Upper} {St : Type} `{VectorStore St}.

Lemma gathered_ok_titled documents chunks :
  gathered documents = Ok chunks → Forall titled documents.
Proof.
  revert chunks. induction documents as [|doc rest IH]; intros chunks; simpl.
  - constructor.
  - unfold outcome.
    destruct (chunk_call doc) as [doc_chunks|e] eqn:Hcall;
      [|destruct (doc !! "title") as [title|] eqn:Htitle; [|done]].
    + destruct (gathered rest) as [rest_chunks|] eqn:Hrest; [|done].
      intros _. constructor; [|by eapply IH].
      unfold chunk_call, getitem in Hcall.
      destruct (doc !! "content"); [|done]. simpl in Hcall.
      unfold titled. destruct (doc !! "title"); [by eexists|done].
    + intros Hrest. constructor; [by eexists|by eapply IH].
Qed.

Lemma source_step_outcome fs file_path doc_type total :
  post (source_step fs (file_path, doc_type) total) (λ r evs,
    add_calls evs = source_calls fs file_path ∧
    match r with
    | Ok total' =>
        total' = total + forwarded evs ∧
        file_titled fs (file_path, doc_type)
    | Raise e =>
        e = KeyError "title" ∧ ¬ file_titled fs (file_path, doc_type)
    end).
Proof.
  eapply post_mono; [apply source_step_post|].
  intros r evs [Hcalls Hrest]. split; [done|].
  unfold forwarded, file_titled. rewrite Hcalls. unfold source_calls. simpl.
  destruct (fs !! file_path) as [documents|] eqn:Hfile.
  - destruct Hrest as [-> _].
    destruct (gathered documents) as [chunks|e] eqn:Hg; simpl.
    + split.
      * destruct chunks; simpl; [done|]. by rewrite length_fmap, Nat.add_0_r.
      * intros ? [= <-]. by eapply gathered_ok_titled.
    + split; [by eapply gathered_raise|].
      intros Htitled. specialize (Htitled documents eq_refl).
      apply gathered_titled in Htitled as [Hok _]. congruence.
  - destruct Hrest as [-> _]. simpl. split; [lia|done].
Qed.

Lemma sources_outcome fs files : ∀ total,
  post (for_each (source_step fs) files total) (λ r evs,
    add_calls evs = run_calls fs files ∧
    match r with
    | Ok total' =>
        total' = total + forwarded evs ∧ Forall (file_titled fs) files
    | Raise e => e = KeyError "title" ∧ ¬ Forall (file_titled fs) files
    end).
Proof.
  induction files as [|[file_path doc_type] rest IH]; intros total; simpl.
  - apply post_ret. split; [done|]. split; [|constructor].
    unfold forwarded. simpl. lia.
  - eapply post_bind; [apply source_step_outcome|..].
    + intros total' evs1 (Hc1 & -> & Htitled).
      eapply post_mono; [apply IH|].
      intros r evs2 [Hc2 Hr]. rewrite add_calls_app, Hc1, Hc2. split.
      * unfold source_raises. unfold file_titled in Htitled.
        simpl in Htitled.
        destruct (fs !! file_path) as [documents|]; [|done].
        specialize (Htitled documents eq_refl).
        by apply gathered_titled in Htitled as [-> _].
      * destruct r as [total''|e].
        -- destruct Hr as [-> Hrest]. rewrite forwarded_app.
           split; [lia|by constructor].
        -- destruct Hr as [-> Hrest]. split; [done|].
           by intros [_ ?]%Forall_cons_1.
    + intros e evs1 (Hc1 & -> & Huntitled). rewrite Hc1. split.
      * unfold source_raises. unfold file_titled in Huntitled.
        simpl in Huntitled.
        destruct (fs !! file_path) as [documents|]; [|by destruct Huntitled].
        rewrite gathered_untitled; [by rewrite app_nil_r|].
        intros Htitled. apply Huntitled. by intros ? [= <-].
      * split; [done|]. by intros [? _]%Forall_cons_1.
Qed.

Lemma source_counts_logged (counts : list (string * nat)) (s : state St) :
  for_each (λ '(source, count) _,
              logger INFO (MsgSourceCount (upper source) count))
    counts tt s
  = (Ok tt,
     extend ((λ '(source, count),
                Log INFO (MsgSourceCount (upper source) count))
               <$> counts) s).
Proof.
  revert s. induction counts as [|[source count] rest IH]; intros s; simpl.
  - unfold ret. by rewrite extend_nil.
  - unfold bind, logger, emit. rewrite IH. by rewrite extend_app.
Qed.

Lemma report_statistics_logged total (s : state St) :
  report_statistics total s
  = (Ok tt, extend (report_events total (get_collection_stats (vs s))) s).
Proof.
  unfold report_statistics, bind, vector_store_get_collection_stats, logger,
    emit.
  rewrite source_counts_logged, !extend_app. done.
Qed.

Lemma run_unfold fs (s : state St) :
  process_and_add_documentation fs s
  = match for_each (source_step fs) scraped_files 0
            (extend [Log INFO MsgStarting] s) with
    | (Ok total, s1) => report_statistics total s1
    | (Raise e, s1) => (Raise e, s1)
    end.
Proof. done. Qed.

(** X4: within what the model covers, namely source files that hold JSON
    objects with text fields ([Doc]), a chunker that returns well-formed
    chunks or raises an exception derived from [Exception] ([exn]), and a
    store whose calls return: a run returns exactly when every document of
    every source file at hand has a title, and otherwise ends by [KeyError]
    on ['title']; no other missing field and no such exception of the
    chunker ends a run. *)
Theorem run_returns_iff_titled fs (s : state St) :
  let r := (process_and_add_documentation fs s).1 in
  (r = Ok tt ↔ Forall (file_titled fs) scraped_files) ∧
  (r = Ok tt ∨ r = Raise (KeyError "title")).
Proof.
  rewrite run_unfold.
  destruct (sources_outcome fs scraped_files 0
              (extend [Log INFO MsgStarting] s))
    as ([total|e] & evs & -> & _ & Hr).
  - rewrite report_statistics_logged. simpl. destruct Hr as [_ Htitled].
    split; [done|by left].
  - simpl. destruct Hr as [-> Huntitled]. split; [|by right].
    split; [done|]. intros Htitled. by destruct Huntitled.
Qed.

(** X5: when a run returns, its log is the start message, the events of the
    source files and then the report: the total it states is the number of
    chunks the run passed to [add_documents], and the database figures are
    those [get_collection_stats] gives on the store the run leaves, with 0
    and no source line for a key the statistics lack; each source line
    carries the name of the source in upper case and its count. *)
Theorem run_report fs (s : state St) :
  let after := process_and_add_documentation fs s in
  after.1 = Ok tt →
  ∃ evs,
    new_events s after.2
    = Log INFO MsgStarting :: evs ++
      report_events (forwarded (new_events s after.2))
        (get_collection_stats (vs after.2)).
Proof.
  intros after Hreturn. subst after. revert Hreturn. rewrite run_unfold.
  destruct (sources_outcome fs scraped_files 0
              (extend [Log INFO MsgStarting] s))
    as ([total|e] & evs & -> & _ & Hr); [|done].
  destruct Hr as [-> _]. rewrite report_statistics_logged. intros _.
  exists evs. simpl. unfold new_events; simpl.
  rewrite <- !app_assoc, drop_app_length. simpl.
  set (stats := get_collection_stats _).
  assert (forwarded (Log INFO MsgStarting
                     :: evs ++ report_events (forwarded evs) stats)
          = forwarded evs) as Hsame; [|by rewrite Hsame].
  change (forwarded (Log INFO MsgStarting :: ?t)) with (forwarded t).
  rewrite forwarded_app. unfold forwarded at 2.
  rewrite report_events_silent. simpl. lia.
Qed.

End run_facts.

(** ** The calls of a run *)

Section call_facts.
Context `{Chunker} `{Upper} {St : Type} `{VectorStore St}.

Lemma source_calls_length fs file_path : length (source_calls fs file_path) ≤ 1.
Proof.
  unfold source_calls. destruct (fs !! file_path) as [documents|]; simpl; [|lia].
  destruct (gathered documents) as [[|chunk chunks]|]; simpl; lia.
Qed.

Lemma run_calls_length fs files : length (run_calls fs files) ≤ length files.
Proof.
  induction files as [|[file_path doc_type] rest IH]; simpl; [done|].
  rewrite length_app. pose proof (source_calls_length fs file_path).
  destruct (source_raises fs file_path); simpl; lia.
Qed.

Lemma run_calls_titled fs files :
  Forall (file_titled fs) files →
  run_calls fs files = mjoin ((λ file, source_calls fs file.1) <$> files).
Proof.
  induction 1 as [|[file_path doc_type] rest Htitled _ IH]; [done|].
  simpl. rewrite IH. unfold source_raises.
  unfold file_titled in Htitled. simpl in Htitled.
  destruct (fs !! file_path) as [documents|]; [|done].
  specialize (Htitled documents eq_refl).
  by apply gathered_titled in Htitled as [-> _].
Qed.

(** X6: a run calls [add_documents] at most three times, once per source
    file at most, and never with empty sequences: every call carries at
    least one text, and as many metadata and ids as texts. *)
Theorem calls_nonempty_at_most_three fs (v : St) :
  let calls :=
    add_calls (trace (process_and_add_documentation fs (initial v)).2) in
  length calls ≤ 3 ∧
  Forall (λ call, call.1.1 ≠ [] ∧
                  length call.1.2 = length call.1.1 ∧
                  length call.2 = length call.1.1) calls.
Proof.
  simpl. rewrite run_add_calls. split.
  - apply (run_calls_length fs scraped_files).
  - apply Forall_forall. intros call Hcall.
    apply run_calls_shape in Hcall as (chunks & Hchunks & ->). simpl.
    rewrite !length_fmap, length_imap. split_and!; [|done..].
    by destruct chunks.
Qed.

(** X7: when every document at hand has a title, the calls of a run are the
    calls of its source files put end to end in the order of
    [scraped_files]: the Django file first, then the React/Next.js file,
    then the Python file; and the call of a file is the same from whatever
    state and running total its step starts. *)
Theorem run_calls_in_file_order fs (v : St) (s0 : state St) (total : nat) :
  Forall (file_titled fs) scraped_files →
  add_calls (trace (process_and_add_documentation fs (initial v)).2)
  = mjoin ((λ file, add_calls (new_events s0 (source_step fs file total s0).2))
             <$> scraped_files).
Proof.
  intros Htitled. rewrite run_add_calls, run_calls_titled by done.
  f_equal. apply list_fmap_ext. intros _ [file_path doc_type] _.
  by destruct (source_step_observed fs file_path doc_type total s0)
    as [-> _].
Qed.

(** X8: documents appended to a source file leave the texts, metadata and
    ids of the chunks before them as they were: the call of the longer file
    starts with the call of the shorter one. *)
Theorem appending_documents_keeps_ids fs file_path doc_type total
    (s : state St) documents more texts metadatas ids :
  let before :=
    source_step (<[file_path := documents]> fs) (file_path, doc_type) total s in
  let after :=
    source_step (<[file_path := documents ++ more]> fs)
      (file_path, doc_type) total s in
  add_calls (new_events s before.2) = [(texts, metadatas, ids)] →
  Forall titled more →
  ∃ texts' metadatas' ids',
    add_calls (new_events s after.2)
    = [(texts ++ texts', metadatas ++ metadatas', ids ++ ids')].
Proof.
  intros before after Hbefore [Hmore _]%gathered_titled.
  destruct (source_step_observed (<[file_path := documents]> fs)
              file_path doc_type total s) as (Hcalls1 & _).
  destruct (source_step_observed (<[file_path := documents ++ more]> fs)
              file_path doc_type total s) as (Hcalls2 & _).
  fold before in Hcalls1. fold after in Hcalls2.
  unfold source_calls in Hcalls1, Hcalls2.
  rewrite lookup_insert_eq in Hcalls1, Hcalls2.
  rewrite Hbefore in Hcalls1. rewrite gathered_app, Hmore in Hcalls2.
  destruct (gathered documents) as [[|chunk chunks]|]; [done| |done].
  injection Hcalls1 as -> -> ->. simpl in Hcalls2.
  exists (content <$> succeeded more), (metadata <$> succeeded more),
    (imap (λ n, chunk_id (length (chunk :: chunks) + n)) (succeeded more)).
  rewrite Hcalls2. unfold call_of.
  change (chunk :: chunks ++ succeeded more)
    with ((chunk :: chunks) ++ succeeded more).
  by rewrite !fmap_app, imap_app.
Qed.

End call_facts.

(** ** Progress messages *)

Section progress_facts.
Context `{Chunker} {St : Type} `{VectorStore St}.

Lemma progress_events_elem doc_type n i k n' doc_type' :
  Log INFO (MsgProcessed k n' doc_type') ∈ progress_events doc_type n i ↔
  n' = n ∧ doc_type' = doc_type ∧ k `mod` 10 = 0 ∧ k = i + 1.
Proof.
  unfold progress_events. destruct (decide _) as [Hmod|Hmod].
  - rewrite list_elem_of_singleton. split.
    + by intros [= -> -> ->].
    + by intros (-> & -> & _ & ->).
  - split; [by intros ?%elem_of_nil|]. intros (_ & _ & Hk & ->). done.
Qed.

Lemma documents_loop_progress doc_type n documents :
  Forall titled documents →
  ∀ i acc (s : state St), ∃ r evs,
    documents_loop doc_type n i documents acc s = (r, extend evs s) ∧
    ∀ k n' doc_type',
      Log INFO (MsgProcessed k n' doc_type') ∈ evs ↔
      n' = n ∧ doc_type' = doc_type ∧ k `mod` 10 = 0 ∧
      ∃ j doc chunks,
        documents !! j = Some doc ∧ k = i + j + 1 ∧
        chunk_call doc = Ok chunks.
Proof.
  induction 1 as [|doc rest [title Htitle] _ IH]; intros i acc s.
  - exists (Ok acc), []. split; [by rewrite extend_nil|].
    intros k n' doc_type'. split; [by intros ?%elem_of_nil|].
    by intros (_ & _ & _ & j & d & chunks & ? & _).
  - simpl. unfold bind.
    destruct (chunk_call doc) as [chunks|e] eqn:Hcall.
    + rewrite (document_step_chunked _ _ _ _ _ _ _ Hcall).
      destruct (IH (S i) (acc ++ chunks)
                  (extend (progress_events doc_type n i) s))
        as (r & evs & -> & Hevs).
      exists r, (progress_events doc_type n i ++ evs).
      split; [by rewrite extend_app|].
      intros k n' doc_type'.
      rewrite elem_of_app, progress_events_elem, Hevs. split.
      * intros [(-> & -> & Hk & ->)|(-> & -> & Hk & j & d & cs & Hj & -> & Hd)].
        -- split_and!; [done..|]. exists 0, doc, chunks.
           split_and!; [done|lia|done].
        -- split_and!; [done..|]. exists (S j), d, cs.
           split_and!; [done|lia|done].
      * intros (-> & -> & Hk & [|j] & d & cs & Hj & -> & Hd).
        -- left. split_and!; [done..|lia].
        -- right. split_and!; [done..| ].
           exists j, d, cs. split_and!; [done|lia|done].
    + rewrite (document_step_skipped _ _ _ _ _ _ _ _ Hcall Htitle).
      destruct (IH (S i) acc
                  (extend [Log ERROR (MsgErrorProcessing title e)] s))
        as (r & evs & -> & Hevs).
      exists r, ([Log ERROR (MsgErrorProcessing title e)] ++ evs).
      split; [by rewrite extend_app|].
      intros k n' doc_type'.
      rewrite elem_of_app, list_elem_of_singleton, Hevs. split.
      * intros [[=]|(-> & -> & Hk & j & d & cs & Hj & -> & Hd)].
        split_and!; [done..|]. exists (S j), d, cs.
        split_and!; [done|lia|done].
      * intros (-> & -> & Hk & [|j] & d & cs & Hj & -> & Hd).
        -- simpl in Hj. congruence.
        -- right. split_and!; [done..|].
           exists j, d, cs. split_and!; [done|lia|done].
Qed.

(** X9: over a batch of titled documents, the loop of lines 47-68 logs a
    progress message with the count [k] exactly when [k] is a multiple of
    ten and the [k]-th document went through the chunker; a tenth document
    that fails gets its error line and no progress line. The message
    carries the size of the batch and the label of the source file. *)
Theorem progress_every_tenth doc_type n documents acc (s : state St)
    k n' doc_type' :
  Forall titled documents →
  Log INFO (MsgProcessed k n' doc_type')
    ∈ new_events s (documents_loop doc_type n 0 documents acc s).2 ↔
  n' = n ∧ doc_type' = doc_type ∧ k `mod` 10 = 0 ∧
  ∃ j doc chunks,
    documents !! j = Some doc ∧ k = j + 1 ∧ chunk_call doc = Ok chunks.
Proof.
  intros Htitled.
  destruct (documents_loop_progress doc_type n documents Htitled 0 acc s)
    as (r & evs & -> & Hevs).
  simpl. rewrite new_events_extend. apply Hevs.
Qed.

End progress_facts.

(** ** Running again on a store that upserts by id *)

Lemma last_entry_snoc {V} (k : string) (entries : list (string * V)) e :
  last_entry k (entries ++ [e])
  = if decide (e.1 = k) then Some e.2 else last_entry k entries.
Proof. unfold last_entry. by rewrite foldl_app. Qed.

Lemma upsert_lookup store entries k :
  Examples.upsert store entries !! k
  = match last_entry k entries with
    | Some v => Some v
    | None => store !! k
    end.
Proof.
  induction entries as [|e entries IH] using rev_ind; [done|].
  unfold Examples.upsert in *. rewrite foldl_app, last_entry_snoc. simpl.
  rewrite lookup_insert. destruct (decide (e.1 = k)); [done|]. apply IH.
Qed.

Lemma upsert_twice store entries :
  Examples.upsert (Examples.upsert store entries) entries
  = Examples.upsert store entries.
Proof.
  apply map_eq. intros k. rewrite !upsert_lookup.
  by destruct (last_entry k entries).
Qed.

Lemma replay_upsert calls store :
  foldl (λ v c, add_documents (VectorStore := Examples.memory_store)
                  c.1.1 c.1.2 c.2 v) store calls
  = Examples.upsert store (call_entries calls).
Proof.
  revert store. induction calls as [|call calls IH]; intros store; [done|].
  simpl. rewrite IH. unfold call_entries; simpl.
  unfold Examples.upsert. by rewrite foldl_app.
Qed.

Section rerun.
Context `{Chunker} `{Upper}.

(** X10: on a store whose [add_documents] puts each text and metadata under
    its id and replaces what the id held (here the in-memory store), a
    second run on the same files leaves the store exactly as the first run
    left it, whatever the store held at the start. *)
Theorem rerun_leaves_upsert_store (fs : gmap string (list Doc))
    (v : gmap string (string * ChunkMetadata)) :
  let first :=
    @process_and_add_documentation _ _ _ Examples.memory_store fs (initial v) in
  let second :=
    @process_and_add_documentation _ _ _ Examples.memory_store fs
      (initial (vs first.2)) in
  vs second.2 = vs first.2.
Proof.
  simpl.
  destruct (@run_post _ _ _ Examples.memory_store fs (initial v))
    as (r1 & evs1 & -> & Hcalls1).
  simpl.
  match goal with
  | |- context [process_and_add_documentation fs ?s] =>
      destruct (@run_post _ _ _ Examples.memory_store fs s)
        as (r2 & evs2 & -> & Hcalls2)
  end.
  simpl. rewrite Hcalls1, Hcalls2, !replay_upsert. apply upsert_twice.
Qed.

End rerun.

(** ** Further concrete runs *)

Section further_concrete.
Import Examples MoreExamples.

(** X1 on [fs_alone] and on the same files beside a file the script has no
    entry for. *)
Lemma run_reads_only_scraped_files_witness :
  process_and_add_documentation fs_alone empty_state
  = process_and_add_documentation fs_other empty_state.
Proof. apply run_reads_only_scraped_files. repeat constructor. Defined.


(** X3 on a batch whose third document has no title, behind a document that
    is chunked and one the chunker refuses. *)
Lemma untitled_document_discards_gathered_chunks_witness :
  let fs : gmap string (list Doc) :=
    {[ django := [views; binary] ++ untitled :: [models] ]} in
  let after := source_step fs (django, "Django") 0 empty_state in
  after.1 = Raise (KeyError "title") ∧
  add_calls (new_events empty_state after.2) = [] ∧
  vs after.2 = vs empty_state ∧
  recorded_failures (new_events empty_state after.2) = failed [views; binary].
Proof.
  apply (untitled_document_discards_gathered_chunks
           {[ django := [views; binary] ++ untitled :: [models] ]}
           django "Django" 0 empty_state [views; binary] untitled [models]);
    [reflexivity| |reflexivity].
  repeat (constructor; [by eexists|]). constructor.
Defined.

(** X5 on [fs_behind], a run that returns. *)
Lemma run_report_witness :
  let after := process_and_add_documentation fs_behind empty_state in
  ∃ evs,
    new_events empty_state after.2
    = Log INFO MsgStarting :: evs ++
      report_events (forwarded (new_events empty_state after.2))
        (get_collection_stats (vs after.2)).
Proof. apply (run_report fs_behind empty_state). vm_compute; reflexivity. Defined.

(** X7 on [fs_all]: a Django file and a Python file, no React/Next.js
    file. *)
Lemma run_calls_in_file_order_witness :
  add_calls (trace (process_and_add_documentation fs_all (initial ∅)).2)
  = mjoin ((λ file,
              add_calls (new_events empty_state
                           (source_step fs_all file 7 empty_state).2))
             <$> scraped_files).
Proof.
  apply (run_calls_in_file_order fs_all ∅ empty_state 7).
  repeat constructor; intros documents [= <-];
    repeat (constructor; [by eexists|]); constructor.
Defined.

(** X8 on the file of [views], then with [models] appended. *)
Lemma appending_documents_keeps_ids_witness :
  let after :=
    source_step (<[django := [views] ++ [models]]> ∅)
      (django, "Django") 0 empty_state in
  ∃ texts' metadatas' ids',
    add_calls (new_events empty_state after.2)
    = [(["def view"] ++ texts', [views_metadata] ++ metadatas',
        ["django_0"] ++ ids')].
Proof.
  apply (appending_documents_keeps_ids ∅ django "Django" 0 empty_state
           [views] [models]).
  - vm_compute; reflexivity.
  - repeat (constructor; [by eexists|]). constructor.
Defined.

(** X9 on a batch of ten documents: the tenth one brings the progress
    message. *)
Lemma progress_every_tenth_witness :
  Log INFO (MsgProcessed 10 10 "Django")
    ∈ new_events empty_state
        (documents_loop "Django" 10 0 ten [] empty_state).2.
Proof.
  apply (progress_every_tenth "Django" 10 ten [] empty_state 10 10 "Django").
  - repeat (constructor; [by eexists|]). constructor.
  - split_and!; [done..|]. exists 9, views, (chunks_of views).
    split_and!; [reflexivity|reflexivity|vm_compute; reflexivity].
Defined.

End further_concrete.
